(** * monster-mash: [docker_download_imgs.py]

    A shallow embedding of the asset download script and of the part of
    its environment it talks to: POSIX path strings ([os.path]), a file
    system tree with a working directory ([os.makedirs], [open]) and an
    HTTP server ([urllib.request.urlretrieve]).

    The script itself is [website], [files] and [main] below.  The
    standard-library calls it makes are modelled after CPython on a POSIX
    host ([os.path] is [posixpath]).  Symbolic links, permissions, a
    full disk, the limit on the length of a name and names with a NUL in
    them are outside the model: a name is any string, and a call fails
    only for what is, or is not, at its path. *)

From Stdlib Require Import Strings.Ascii Strings.String Strings.Byte.
From stdpp Require Import base strings list gmap.


(** ** Python strings *)

Definition is_sep (c : ascii) : bool := Ascii.eqb c "/"%char.

(** [s.startswith('/')] *)
Definition startswith_sep (s : string) : bool :=
  match s with
  | String c _ => is_sep c
  | EmptyString => false
  end.

(** [s.endswith('/')] *)
Fixpoint endswith_sep (s : string) : bool :=
  match s with
  | EmptyString => false
  | String c EmptyString => is_sep c
  | String _ s' => endswith_sep s'
  end.

(** ['/' in s] *)
Fixpoint has_sep (s : string) : bool :=
  match s with
  | EmptyString => false
  | String c s' => is_sep c || has_sep s'
  end.

(** [s == '/' * len(s)] *)
Fixpoint all_sep (s : string) : bool :=
  match s with
  | EmptyString => true
  | String c s' => is_sep c && all_sep s'
  end.

(** [s.rstrip('/')] *)
Fixpoint rstrip_sep (s : string) : string :=
  match s with
  | EmptyString => EmptyString
  | String c s' =>
      let r := rstrip_sep s' in
      if String.eqb r "" && is_sep c then "" else String c r
  end.

(** [s.split('/')]: never empty, [""] for the empty string. *)
Fixpoint components (s : string) : list string :=
  match s with
  | EmptyString => [""]
  | String c s' =>
      if is_sep c then "" :: components s'
      else match components s' with
           | x :: xs => String c x :: xs
           | [] => [String c ""]
           end
  end.

(** ** [posixpath] *)

Module posixpath.

(** [(p[:i], p[i:])] for [i = p.rfind('/') + 1]. *)
Fixpoint cut (p : string) : string * string :=
  match p with
  | EmptyString => ("", "")
  | String c p' =>
      let '(h, t) := cut p' in
      if negb (String.eqb h "") then (String c h, t)
      else if is_sep c then ("/", t)
      else ("", String c t)
  end.

(** [posixpath.split]: the head loses its trailing slashes unless it
    consists of slashes only. *)
Definition split (p : string) : string * string :=
  let '(head, tail) := cut p in
  if negb (String.eqb head "") && negb (all_sep head)
  then (rstrip_sep head, tail)
  else (head, tail).

(** [posixpath.join(a, b)] *)
Definition join (a b : string) : string :=
  if startswith_sep b then b
  else if String.eqb a "" || endswith_sep a then a +:+ b
  else a +:+ "/" +:+ b.

End posixpath.

(** ** The world outside the script *)

(** A file-system object.  Paths into the tree are lists of names from
    the root. *)
Inductive node : Type :=
  | Dir
  | File (content : list byte).

(** The two calls the script makes to the outside, as it makes them. *)
Inductive event : Type :=
  | Makedirs (name : string)
  | Urlretrieve (url filename : string).

Record world : Type := World {
  fs : gmap (list string) node;
  cwd : list string;
  log : list event
}.

Definition set_fs (t : gmap (list string) node) (w : world) : world :=
  {| fs := t; cwd := cwd w; log := log w |}.

Definition tell (e : event) (w : world) : world :=
  {| fs := fs w; cwd := cwd w; log := log w ++ [e] |}.

(** Uncaught Python exceptions. *)
Inductive exn : Type :=
  | FileExistsError
  | FileNotFoundError
  | NotADirectoryError
  | IsADirectoryError
  | URLError
  | ContentTooShortError
  | IncompleteRead
  | RemoteDisconnected
  | InvalidURL
  | RecursionError.

(** What becomes of one request.

    [Failed e]: [urlopen] raises [e] and no response is read.  The
    request was refused before it was sent ([InvalidURL], for a URL with
    a blank or a control character in it), there was no connection or
    the status was not a success ([URLError], which [HTTPError] is), or
    the server hung up without an answer ([RemoteDisconnected]).

    [Complete body]: the whole body arrives.

    [Interrupted written e]: the response begins, the bytes [written]
    are copied to the local file, and then [e] is raised.  When the body
    ends short of the announced length, all that arrived has been
    written and [e] is [ContentTooShortError]; when a chunked transfer
    is cut, the bytes of the unfinished read are not written, [written]
    may be empty, and [e] is [IncompleteRead]. *)
Inductive response : Type :=
  | Failed (e : exn)
  | Complete (body : list byte)
  | Interrupted (written : list byte) (e : exn).

(** The server may answer the same URL differently over time; time is the
    number of calls the script has made so far. *)
Definition network : Type := nat → string → response.

Inductive result (A : Type) : Type :=
  | Ok (a : A)
  | Raise (e : exn).
Arguments Ok {A} a.
Arguments Raise {A} e.

(** Effectful code: it reads and changes the world and may raise; what it
    did before raising stays done. *)
Definition M (A : Type) : Type := world → result A * world.

Definition ret {A} (a : A) : M A := λ w, (Ok a, w).

Definition raise {A} (e : exn) : M A := λ w, (Raise e, w).

Definition bind {A B} (m : M A) (k : A → M B) : M B :=
  λ w, match m w with
       | (Ok a, w') => k a w'
       | (Raise e, w') => (Raise e, w')
       end.

Notation "x <- m ;; k" := (bind m (λ x, k))
  (at level 100, m at next level, right associativity).
Notation "m ;;; k" := (bind m (λ _, k))
  (at level 100, right associativity).

(** [for x in l: body(x)] *)
Fixpoint for_each {A} (l : list A) (body : A → M unit) : M unit :=
  match l with
  | [] => ret tt
  | x :: l' => body x ;;; for_each l' body
  end.

(** ** The file system *)

Definition is_dot (c : string) : bool :=
  String.eqb c "" || String.eqb c "." || String.eqb c "..".

(** One component of a path, looked up in the directory [cur]. *)
Definition step (cur : list string) (c : string) : list string :=
  if String.eqb c "" || String.eqb c "." then cur
  else if String.eqb c ".." then removelast cur
  else cur ++ [c].

(** Path resolution: every component is looked up in an existing
    directory. *)
Fixpoint walk (t : gmap (list string) node) (cur : list string)
    (comps : list string) : result (list string) :=
  match comps with
  | [] => Ok cur
  | c :: cs =>
      match t !! cur with
      | Some Dir => walk t (step cur c) cs
      | Some (File _) => Raise NotADirectoryError
      | None => Raise FileNotFoundError
      end
  end.

Definition origin (w : world) (name : string) : list string :=
  if startswith_sep name then [] else cwd w.

(** [os.stat] *)
Definition stat (w : world) (name : string) : result node :=
  if String.eqb name "" then Raise FileNotFoundError
  else match walk (fs w) (origin w name) (components name) with
       | Ok p => match fs w !! p with
                 | Some n => Ok n
                 | None => Raise FileNotFoundError
                 end
       | Raise e => Raise e
       end.

(** [os.path.exists] *)
Definition exists_ (w : world) (name : string) : bool :=
  match stat w name with
  | Ok _ => true
  | Raise _ => false
  end.

(** The directory that holds the last component of [name], and that
    component. *)
Definition lookup_parent (w : world) (name : string)
    : result (list string * string) :=
  if String.eqb name "" then Raise FileNotFoundError
  else
    let comps := components name in
    match walk (fs w) (origin w name) (removelast comps) with
    | Raise e => Raise e
    | Ok d =>
        match fs w !! d with
        | Some Dir => Ok (d, List.last comps "")
        | Some (File _) => Raise NotADirectoryError
        | None => Raise FileNotFoundError
        end
    end.

(** [os.mkdir]: one directory, whose parent must exist. *)
Definition mkdir (name : string) : M unit :=
  λ w,
    if String.eqb name "" then (Raise FileNotFoundError, w)
    else if all_sep name then (Raise FileExistsError, w)
    else match lookup_parent w (rstrip_sep name) with
         | Raise e => (Raise e, w)
         | Ok (d, c) =>
             if is_dot c then (Raise FileExistsError, w)
             else match fs w !! (d ++ [c]) with
                  | Some _ => (Raise FileExistsError, w)
                  | None => (Ok tt, set_fs (<[d ++ [c] := Dir]> (fs w)) w)
                  end
         end.

(** [open(name, 'wb')]: creates the file or truncates it; the result is
    the file the descriptor refers to.  A name that ends in [/] asks for
    a directory, which cannot be opened for writing, there or not. *)
Definition open_wb (name : string) : M (list string) :=
  λ w,
    if endswith_sep name && negb (all_sep name) then
      match lookup_parent w (rstrip_sep name) with
      | Raise e => (Raise e, w)
      | Ok (d, c) =>
          match fs w !! (d ++ [c]) with
          | Some (File _) =>
              if is_dot c then (Raise IsADirectoryError, w)
              else (Raise NotADirectoryError, w)
          | _ => (Raise IsADirectoryError, w)
          end
      end
    else
      match lookup_parent w name with
      | Raise e => (Raise e, w)
      | Ok (d, c) =>
          if is_dot c then (Raise IsADirectoryError, w)
          else match fs w !! (d ++ [c]) with
               | Some Dir => (Raise IsADirectoryError, w)
               | _ => (Ok (d ++ [c]), set_fs (<[d ++ [c] := File []]> (fs w)) w)
               end
      end.

(** [fd.write(data)] *)
Definition write (fd : list string) (data : list byte) : M unit :=
  λ w,
    (Ok tt,
     set_fs (alter (λ n, match n with
                         | File old => File (old ++ data)
                         | Dir => Dir
                         end) fd (fs w)) w).

(** ** [os.makedirs]

    [makedirs(name)] with [exist_ok=False]:
<<
    head, tail = path.split(name)
    if not tail:
        head, tail = path.split(head)
    if head and tail and not path.exists(head):
        try:
            makedirs(head, exist_ok=exist_ok)
        except FileExistsError:
            pass
        if tail == curdir:
            return
    mkdir(name, mode)
>>
    The recursion is on a proper prefix of [name].  It is recursion in
    the interpreter, which allows [n] calls within one another and
    raises [RecursionError] at the next; nothing has been created by
    then, for the directories are made on the way back. *)
Fixpoint makedirs_rec (n : nat) (name : string) : M unit :=
  match n with
  | O => raise RecursionError
  | S n' =>
      let '(head, tail) := posixpath.split name in
      let '(head, tail) :=
        if String.eqb tail "" then posixpath.split head else (head, tail) in
      λ w,
        if negb (String.eqb head "") && negb (String.eqb tail "")
           && negb (exists_ w head)
        then
          match makedirs_rec n' head w with
          | (Raise FileExistsError, w') | (Ok tt, w') =>
              if String.eqb tail "." then (Ok tt, w') else mkdir name w'
          | (Raise e, w') => (Raise e, w')
          end
        else mkdir name w
  end.

(** [sys.getrecursionlimit()] as the interpreter starts; the frames the
    script has in use when it calls [os.makedirs], a handful, are not
    taken off. *)
Definition recursion_limit : nat := 1000.

Module os.

Definition makedirs (name : string) : M unit :=
  λ w, makedirs_rec recursion_limit name (tell (Makedirs name) w).

End os.

(** ** [urllib.request.urlretrieve]

    [urlopen] comes first and raises when no response with a success
    status is had; only then is the local file opened for writing, and
    the body is copied into it block by block.  When the copy is cut
    short, what has been written stays in the file and the exception of
    the read, or [ContentTooShortError], is raised. *)
Module urllib.

Definition urlretrieve (net : network) (url filename : string) : M unit :=
  λ w,
    let now := length (log w) in
    (match net now url with
     | Failed e => raise e
     | Complete body =>
         fd <- open_wb filename ;; write fd body
     | Interrupted written e =>
         fd <- open_wb filename ;; write fd written ;;; raise e
     end) (tell (Urlretrieve url filename) w).

End urllib.

(** ** The script *)

Definition website : string := "https://monstermash.zone/imgs/".

Definition files : list string := [
  (* Images. *)
  "example-antelope.jpg";
  "example-bird.jpg";
  "example-box.jpg";
  "example-dino.jpg";
  "example-dog.jpg";
  "example-heart.jpg";
  "example-chihuahua.jpg";
  "example-tree.jpg";
  "mouse_Left.jpg";
  "mouse_Wheel.jpg";
  "mouse_Right.jpg";
  "loading.jpg";
  (* Movies. *)
  "tutorial-mode1.mov";
  "tutorial-mode2.mov";
  "tutorial-mode3.mov";
  "help-drawmode.mov";
  "help-inflatemode.mov";
  "help-animatemode.mov";
  "help-redrawmode.mov";
  (* Icons. *)
  "icon_pause.svg";
  "icon_play.svg";
  "icon_new_ss2_white.svg";
  "icon_save_ss2_white.svg";
  "icon_open_ss2_white.svg";
  "rotate-gizmo.svg";
  "icon_trash_ss2_white.svg";
  "tutorial-play.svg";
  "key-box.svg";
  "key-rect.svg";
  "key-rectBig.svg"
].

(** Lines 44 to 48 with the three literals as parameters:
<<
    os.makedirs(dest)
    for f in files:
        url = website + f
        urllib.request.urlretrieve(url, os.path.join(dest, f))
>> *)
Definition fetch_all (net : network) (website : string)
    (files : list string) (dest : string) : M unit :=
  os.makedirs dest ;;;
  for_each files (λ f,
    let url := website +:+ f in
    urllib.urlretrieve net url (posixpath.join dest f)).

(** The script as it stands. *)
Definition main (net : network) : M unit :=
  fetch_all net website files "imgs".

(** ** Observations *)

(** A bare file name: no separator, and not one of the names every
    directory has. *)
Definition bare (s : string) : bool := negb (has_sep s) && negb (is_dot s).

(** The name [p] has in the directory [d], if [p] lies directly in it. *)
Definition child_of (d p : list string) : option string :=
  match p with
  | [] => None
  | _ :: _ => if decide (removelast p = d) then Some (List.last p "") else None
  end.

(** [os.listdir]: the names in the directory at [d]. *)
Definition listdir (t : gmap (list string) node) (d : list string) : gset string :=
  set_omap (child_of d) (dom t).

(** A file system is a tree: everything but the root lies in a
    directory. *)
Definition tree (t : gmap (list string) node) : Prop :=
  map_Forall (λ p _, p = [] ∨ t !! removelast p = Some Dir) t.

(** The URLs requested, oldest first. *)
Definition requests (l : list event) : list string :=
  omap (λ e, match e with
             | Urlretrieve url _ => Some url
             | Makedirs _ => None
             end) l.

(** The call the loop makes for the entry [f]. *)
Definition fetch_of (website dest f : string) : event :=
  Urlretrieve (website +:+ f) (posixpath.join dest f).

(** The exceptions of the file system calls: something is at the path
    that should not be, or is not that should. *)
Definition is_file_system_error (e : exn) : bool :=
  match e with
  | FileExistsError | FileNotFoundError | NotADirectoryError | IsADirectoryError => true
  | URLError | ContentTooShortError | IncompleteRead | RemoteDisconnected
  | InvalidURL | RecursionError => false
  end.

(** [w'] is [w] with some directories added where nothing was. *)
Definition grows (w w' : world) : Prop :=
  log w' = log w ∧ cwd w' = cwd w ∧
  ∀ p, fs w' !! p = fs w !! p ∨ (fs w !! p = None ∧ fs w' !! p = Some Dir).

(** The body of the loop, lines 47 and 48. *)
Definition body (net : network) (website dest f : string) : M unit :=
  let url := website +:+ f in
  urllib.urlretrieve net url (posixpath.join dest f).

(** The directory the script fills. *)
Definition D (dest : string) (w : world) : list string := cwd w ++ [dest].

(** What the loop relies on: the working directory and the directory to
    fill are there. *)
Definition ready (dest : string) (w : world) : Prop :=
  fs w !! cwd w = Some Dir ∧ fs w !! D dest w = Some Dir.

(** The directory to fill has no subdirectories. *)
Definition flat (dest : string) (w : world) : Prop :=
  ∀ c, fs w !! (D dest w ++ [c]) ≠ Some Dir.

(** The two runs of the examples below start in an empty home directory
    and in one where [imgs] is a plain file. *)
Definition home : world :=
  {| fs := {[ [] := Dir; ["home"] := Dir ]}; cwd := ["home"]; log := [] |}.

Definition home_with_file : world :=
  {| fs := {[ [] := Dir; ["home"] := Dir; ["home"; "imgs"] := File [] ]};
     cwd := ["home"]; log := [] |}.

(** A world whose working directory has been removed under the script. *)
Definition adrift : world :=
  {| fs := {[ [] := Dir ]}; cwd := ["gone"]; log := [] |}.

(** A bare root directory, with the script started there. *)
Definition root_only : world :=
  {| fs := {[ [] := Dir ]}; cwd := []; log := [] |}.

(** A server that has every asset, and serves [request number] bytes. *)
Definition serving : network := λ now _, Complete (replicate now "x"%byte).

(** The URLs of the script, in manifest order. *)
Definition urls : list string := (λ f, website +:+ f) <$> files.

(** The requests one run of the script makes, starting in [w]. *)
Definition run_requests (net : network) (w : world) : list string :=
  requests (drop (length (log w)) (log (main net w).2)).

(** A server that has [a.jpg] and [c.jpg], and whose answer for [b.jpg]
    ends after four bytes, short of the length it announced. *)
Definition breaking : network :=
  λ _ url,
    if String.eqb url "https://monstermash.zone/imgs/b.jpg"
    then Interrupted ["b"; "r"; "o"; "k"]%byte ContentTooShortError
    else Complete ["d"; "o"; "n"; "e"]%byte.

(** C1 as it is stated: when the directory has been created, the entries
    [pre] have been fetched and the fetch of [f] fails, nothing after [f]
    is fetched and the directory holds the files of [pre], no others. *)
Definition failed_fetch_leaves_fetched_prefix : Prop :=
  ∀ net website dest pre f post w,
    bare dest = true → tree (fs w) →
    fs w !! cwd w = Some Dir → fs w !! (cwd w ++ [dest]) = None →
    (∀ i g, pre !! i = Some g →
       ∃ data, net (S (length (log w)) + i) (website +:+ g) = Complete data) →
    (∀ data, net (S (length (log w)) + length pre) (website +:+ f) ≠ Complete data) →
    let w' := (fetch_all net website (pre ++ f :: post) dest w).2 in
    log w' = log w ++ Makedirs dest :: (fetch_of website dest <$> pre ++ [f]) ∧
    listdir (fs w') (cwd w ++ [dest]) = list_to_set pre.

(** C2 as it is stated: after a run that returns, the directory holds
    the files the manifest names, and the file of each entry holds what
    was served when that entry was fetched. *)
Definition success_mirrors_every_entry : Prop :=
  ∀ net website dest files w w',
    bare dest = true → tree (fs w) → files ≠ [] →
    fetch_all net website files dest w = (Ok tt, w') →
    listdir (fs w') (cwd w ++ [dest]) = list_to_set files ∧
    ∀ i f, files !! i = Some f →
      ∃ data, net (S (length (log w)) + i) (website +:+ f) = Complete data ∧
              fs w' !! (cwd w ++ [dest; f]) = Some (File data).

(** C8 as it is stated. *)
Definition manifest_of_31_distinct : Prop :=
  length files = 31 ∧ NoDup files ∧
  ∀ net w w', tree (fs w) → main net w = (Ok tt, w') →
    size (listdir (fs w') (cwd w ++ ["imgs"])) = 31.

(** C10 as it is stated. *)
Definition every_run_requests_the_same_31 : Prop :=
  ∀ net1 w1 net2 w2,
    run_requests net1 w1 = run_requests net2 w2 ∧
    length (run_requests net1 w1) = 31.

(** * Path strings *)

Section path_strings.

Local Arguments String.append !_ _ / : simpl nomatch.

Lemma eqb_empty_cons c s : String.eqb "" (String c s) = false.
Proof. reflexivity. Qed.

Lemma append_empty_r s : s +:+ "" = s.
Proof. induction s as [|c s IH]; simpl; congruence. Qed.

Lemma append_assoc a b c : (a +:+ b) +:+ c = a +:+ b +:+ c.
Proof. induction a as [|x a IH]; simpl; congruence. Qed.

Lemma components_nonempty s : components s ≠ [].
Proof.
  destruct s as [|c s]; simpl; [done|].
  destruct (is_sep c); [done|]. by destruct (components s).
Qed.

Lemma components_no_sep s : has_sep s = false → components s = [s].
Proof.
  induction s as [|c s IH]; simpl; [done|].
  intros [Hc Hs]%orb_false_elim. rewrite Hc, (IH Hs). done.
Qed.

Lemma components_append a b :
  has_sep a = false →
  components (a +:+ "/" +:+ b) = a :: components b.
Proof.
  induction a as [|c a IH]; simpl in *; [done|].
  intros [Hc Ha]%orb_false_elim. rewrite Hc, (IH Ha). done.
Qed.

Lemma cut_no_sep s : has_sep s = false → posixpath.cut s = ("", s).
Proof.
  induction s as [|c s IH]; simpl; [done|].
  intros [Hc Hs]%orb_false_elim. rewrite (IH Hs), Hc. done.
Qed.

Lemma cut_append a b :
  has_sep b = false → posixpath.cut (a +:+ "/" +:+ b) = (a +:+ "/", b).
Proof.
  intros Hb. induction a as [|c a IH]; simpl in *.
  - by rewrite (cut_no_sep b Hb).
  - rewrite IH. by destruct a.
Qed.

Lemma cut_append_eq p h t : posixpath.cut p = (h, t) → p = h +:+ t.
Proof.
  revert h t. induction p as [|c p IH]; simpl; intros h t.
  - by intros [= <- <-].
  - destruct (posixpath.cut p) as [h' t'] eqn:E.
    specialize (IH _ _ eq_refl). subst p.
    destruct h' as [|x h']; simpl.
    + destruct (is_sep c) eqn:Hc; intros [= <- <-]; [|done].
      unfold is_sep in Hc. apply Ascii.eqb_eq in Hc. by subst c.
    + by intros [= <- <-].
Qed.

Lemma rstrip_sep_length s : String.length (rstrip_sep s) ≤ String.length s.
Proof.
  induction s as [|c s IH]; simpl; [done|].
  destruct (String.eqb (rstrip_sep s) "" && is_sep c); simpl; lia.
Qed.

Lemma length_append a b :
  String.length (a +:+ b) = String.length a + String.length b.
Proof. induction a as [|c a IH]; simpl; congruence. Qed.

Lemma split_length p h t :
  posixpath.split p = (h, t) →
  String.length h + String.length t ≤ String.length p.
Proof.
  unfold posixpath.split. destruct (posixpath.cut p) as [h' t'] eqn:E.
  apply cut_append_eq in E. subst p. rewrite length_append.
  destruct (_ && _); intros [= <- <-]; [|done].
  pose proof (rstrip_sep_length h'). lia.
Qed.

Lemma rstrip_sep_no_sep s : has_sep s = false → rstrip_sep s = s.
Proof.
  induction s as [|c s IH]; simpl; [done|].
  intros [Hc Hs]%orb_false_elim. rewrite (IH Hs), Hc.
  by rewrite andb_false_r.
Qed.

Lemma rstrip_sep_append_sep s :
  has_sep s = false → s ≠ "" → rstrip_sep (s +:+ "/") = s.
Proof.
  induction s as [|c s IH]; simpl; [done|].
  intros [Hc Hs]%orb_false_elim _. rewrite Hc, andb_false_r.
  destruct s as [|c' s]; [done|]. by rewrite IH.
Qed.

Lemma endswith_no_sep s : has_sep s = false → endswith_sep s = false.
Proof.
  induction s as [|c s IH]; simpl; [done|].
  intros [Hc Hs]%orb_false_elim. destruct s; auto.
Qed.

Lemma bare_no_sep s : bare s = true → has_sep s = false.
Proof. unfold bare. intros [H _]%andb_true_iff. by apply negb_true_iff. Qed.

Lemma bare_not_dot s : bare s = true → is_dot s = false.
Proof. unfold bare. intros [_ H]%andb_true_iff. by apply negb_true_iff. Qed.

Lemma bare_nonempty s : bare s = true → s ≠ "".
Proof. intros H%bare_not_dot ->. done. Qed.

Lemma bare_eqb_empty s : bare s = true → String.eqb s "" = false.
Proof. intros H. apply String.eqb_neq. by apply bare_nonempty. Qed.

Lemma bare_not_abs s : bare s = true → startswith_sep s = false.
Proof. intros H%bare_no_sep. destruct s; simpl in *; [done|]. by apply orb_false_elim in H as [? _]. Qed.

Lemma bare_not_all_sep s : bare s = true → all_sep s = false.
Proof.
  intros H. pose proof (bare_nonempty _ H). apply bare_no_sep in H.
  destruct s; simpl in *; [done|]. apply orb_false_elim in H as [-> _]. done.
Qed.

Lemma step_bare cur c : bare c = true → step cur c = cur ++ [c].
Proof.
  intros H%bare_not_dot. unfold is_dot in H. unfold step.
  apply orb_false_elim in H as [H ->]. by rewrite H.
Qed.

Lemma split_bare s : bare s = true → posixpath.split s = ("", s).
Proof. intros H%bare_no_sep. unfold posixpath.split. by rewrite cut_no_sep. Qed.

Lemma append_sep_not_all_sep a : bare a = true → all_sep (a +:+ "/") = false.
Proof.
  intros H. pose proof (bare_nonempty _ H). apply bare_no_sep in H.
  destruct a; simpl in *; [done|]. apply orb_false_elim in H as [-> _]. done.
Qed.

Lemma split_two a b :
  bare a = true → has_sep b = false →
  posixpath.split (a +:+ "/" +:+ b) = (a, b).
Proof.
  intros Ha Hb. unfold posixpath.split. rewrite (cut_append _ _ Hb).
  rewrite (append_sep_not_all_sep _ Ha).
  pose proof (bare_nonempty _ Ha).
  rewrite rstrip_sep_append_sep by eauto using bare_no_sep.
  destruct a; done.
Qed.

Lemma join_bare dest f :
  bare dest = true → startswith_sep f = false →
  posixpath.join dest f = dest +:+ "/" +:+ f.
Proof.
  intros Hd Hf. unfold posixpath.join.
  rewrite Hf, (bare_eqb_empty _ Hd), (endswith_no_sep _ (bare_no_sep _ Hd)).
  done.
Qed.

Lemma append_sep_not_abs a b :
  bare a = true → startswith_sep (a +:+ "/" +:+ b) = false.
Proof.
  intros H. pose proof (bare_nonempty _ H). apply bare_not_abs in H.
  by destruct a.
Qed.

Lemma append_sep_nonempty a b : String.eqb (a +:+ "/" +:+ b) "" = false.
Proof. by destruct a. Qed.

Lemma length_append_sep a b :
  String.length (a +:+ "/" +:+ b) = S (String.length a + String.length b).
Proof. rewrite length_append. simpl. lia. Qed.

Lemma all_sep_append a b : bare a = true → all_sep (a +:+ "/" +:+ b) = false.
Proof.
  intros H. pose proof (bare_nonempty _ H). apply bare_no_sep in H.
  destruct a; simpl in *; [done|]. by apply orb_false_elim in H as [-> _].
Qed.

Lemma rstrip_sep_append a b :
  bare b = true → rstrip_sep (a +:+ "/" +:+ b) = a +:+ "/" +:+ b.
Proof.
  intros H. pose proof (bare_nonempty _ H). apply bare_no_sep in H.
  induction a as [|c a IH]; simpl in *.
  - rewrite (rstrip_sep_no_sep _ H). by destruct b.
  - rewrite IH. by destruct a.
Qed.

Lemma endswith_sep_cons c s :
  s ≠ "" → endswith_sep (String c s) = endswith_sep s.
Proof. by destruct s. Qed.

Lemma endswith_sep_append a b :
  b ≠ "" → endswith_sep (a +:+ b) = endswith_sep b.
Proof.
  intros Hb. induction a as [|c a IH]; simpl; [done|].
  rewrite <- IH. apply endswith_sep_cons. by destruct a, b.
Qed.

Lemma append_sep_ne a b : a +:+ "/" +:+ b ≠ "".
Proof. by destruct a. Qed.

Lemma endswith_sep_in a f : bare f = true → endswith_sep (a +:+ "/" +:+ f) = false.
Proof.
  intros Hf. rewrite endswith_sep_append by done.
  change ("/" +:+ f) with (String "/" f).
  rewrite endswith_sep_cons by (by apply bare_nonempty).
  by apply endswith_no_sep, bare_no_sep.
Qed.

Lemma bare_eqb_dot s : bare s = true → String.eqb s "." = false.
Proof.
  intros H%bare_not_dot. unfold is_dot in H.
  by apply orb_false_elim in H as [[_ ?]%orb_false_elim _].
Qed.

End path_strings.

(** * The file system *)

Section file_system.

Implicit Types (t : gmap (list string) node) (w : world) (d p : list string).

Lemma child_of_Some d p c : child_of d p = Some c ↔ p = d ++ [c].
Proof.
  unfold child_of. split.
  - destruct p as [|x p]; [done|]. case_decide as E; [|done].
    intros Hc. injection Hc as Hc. subst c d.
    exact (@app_removelast_last _ (x :: p) "" ltac:(done)).
  - intros ->. destruct (d ++ [c]) eqn:E; [by destruct d|].
    rewrite <- E, removelast_last, last_last. by rewrite decide_True.
Qed.

Lemma elem_of_listdir t d c : c ∈ listdir t d ↔ is_Some (t !! (d ++ [c])).
Proof.
  unfold listdir. rewrite elem_of_set_omap. split.
  - intros (p & Hp & E). apply child_of_Some in E as ->. by apply elem_of_dom.
  - intros H. exists (d ++ [c]). split; [by apply elem_of_dom|].
    by apply child_of_Some.
Qed.

(** In a tree, a directory that is not there has nothing in it. *)
Lemma tree_absent_empty t d c : tree t → t !! d = None → t !! (d ++ [c]) = None.
Proof.
  intros Ht Hd. destruct (t !! (d ++ [c])) as [n|] eqn:E; [|done].
  apply Ht in E as [E|E]; [by destruct d|].
  rewrite removelast_last in E. congruence.
Qed.

Lemma lookup_parent_bare w name :
  bare name = true →
  lookup_parent w name =
    match fs w !! cwd w with
    | Some Dir => Ok (cwd w, name)
    | Some (File _) => Raise NotADirectoryError
    | None => Raise FileNotFoundError
    end.
Proof.
  intros H. unfold lookup_parent, origin.
  rewrite (bare_eqb_empty _ H), (bare_not_abs _ H).
  by rewrite (components_no_sep _ (bare_no_sep _ H)).
Qed.

Lemma lookup_parent_in w dest f :
  bare dest = true → has_sep f = false → fs w !! cwd w = Some Dir →
  lookup_parent w (dest +:+ "/" +:+ f) =
    match fs w !! (cwd w ++ [dest]) with
    | Some Dir => Ok (cwd w ++ [dest], f)
    | Some (File _) => Raise NotADirectoryError
    | None => Raise FileNotFoundError
    end.
Proof.
  intros Hd Hf Hcwd. unfold lookup_parent, origin.
  rewrite append_sep_nonempty, (append_sep_not_abs _ _ Hd).
  rewrite (components_append _ _ (bare_no_sep _ Hd)), (components_no_sep _ Hf).
  simpl. by rewrite Hcwd, (step_bare _ _ Hd).
Qed.

Lemma mkdir_bare w name :
  bare name = true →
  mkdir name w =
    match fs w !! cwd w with
    | Some Dir =>
        match fs w !! (cwd w ++ [name]) with
        | Some _ => (Raise FileExistsError, w)
        | None => (Ok tt, set_fs (<[cwd w ++ [name] := Dir]> (fs w)) w)
        end
    | Some (File _) => (Raise NotADirectoryError, w)
    | None => (Raise FileNotFoundError, w)
    end.
Proof.
  intros H. unfold mkdir.
  rewrite (bare_eqb_empty _ H), (bare_not_all_sep _ H).
  rewrite (rstrip_sep_no_sep _ (bare_no_sep _ H)), (lookup_parent_bare _ _ H).
  destruct (fs w !! cwd w) as [[|?]|]; [|done..].
  by rewrite (bare_not_dot _ H).
Qed.

Lemma makedirs_rec_S n name w :
  makedirs_rec (S n) name w =
    let '(head, tail) := posixpath.split name in
    let '(head, tail) :=
      if String.eqb tail "" then posixpath.split head else (head, tail) in
    if negb (String.eqb head "") && negb (String.eqb tail "")
       && negb (exists_ w head)
    then
      match makedirs_rec n head w with
      | (Raise FileExistsError, w') | (Ok tt, w') =>
          if String.eqb tail "." then (Ok tt, w') else mkdir name w'
      | (Raise e, w') => (Raise e, w')
      end
    else mkdir name w.
Proof.
  simpl. destruct (posixpath.split name) as [h0 t0].
  by destruct (if String.eqb t0 "" then posixpath.split h0 else (h0, t0)).
Qed.

Lemma exists_absent w name :
  bare name = true → fs w !! (cwd w ++ [name]) = None → exists_ w name = false.
Proof.
  intros H Habs. unfold exists_, stat, origin.
  rewrite (bare_eqb_empty _ H), (bare_not_abs _ H).
  rewrite (components_no_sep _ (bare_no_sep _ H)). simpl.
  destruct (fs w !! cwd w) as [[|?]|]; [|done..].
  by rewrite (step_bare _ _ H), Habs.
Qed.

Lemma makedirs_bare w name :
  bare name = true →
  os.makedirs name w = mkdir name (tell (Makedirs name) w).
Proof.
  intros H. unfold os.makedirs. simpl.
  by rewrite (split_bare _ H), (bare_eqb_empty _ H).
Qed.

Lemma open_wb_file name w :
  endswith_sep name = false →
  open_wb name w =
    match lookup_parent w name with
    | Raise e => (Raise e, w)
    | Ok (d, c) =>
        if is_dot c then (Raise IsADirectoryError, w)
        else match fs w !! (d ++ [c]) with
             | Some Dir => (Raise IsADirectoryError, w)
             | _ => (Ok (d ++ [c]), set_fs (<[d ++ [c] := File []]> (fs w)) w)
             end
    end.
Proof. intros H. unfold open_wb. by rewrite H. Qed.

Lemma open_wb_in w dest f :
  bare dest = true → bare f = true →
  fs w !! cwd w = Some Dir → fs w !! (cwd w ++ [dest]) = Some Dir →
  open_wb (dest +:+ "/" +:+ f) w =
    match fs w !! (cwd w ++ [dest; f]) with
    | Some Dir => (Raise IsADirectoryError, w)
    | _ => (Ok (cwd w ++ [dest; f]),
            set_fs (<[cwd w ++ [dest; f] := File []]> (fs w)) w)
    end.
Proof.
  intros Hd Hf Hcwd HD. rewrite (open_wb_file _ _ (endswith_sep_in _ _ Hf)).
  rewrite (lookup_parent_in _ _ _ Hd (bare_no_sep _ Hf) Hcwd), HD.
  rewrite (bare_not_dot _ Hf), <- app_assoc. done.
Qed.

End file_system.

(** * What the calls do to the world, whatever their arguments *)


Section calls.

Implicit Types (w : world) (p : list string) (net : network).

Lemma grows_refl w : grows w w.
Proof. repeat split. by left. Qed.

Lemma grows_trans w1 w2 w3 : grows w1 w2 → grows w2 w3 → grows w1 w3.
Proof.
  intros (Hl1 & Hc1 & H1) (Hl2 & Hc2 & H2).
  repeat split; [congruence..|]. intros p.
  destruct (H1 p) as [E1|[E1 E1']], (H2 p) as [E2|[E2 E2']];
    [left|right; split|right; split|exfalso]; congruence.
Qed.

Lemma walk_raises t cur comps e :
  walk t cur comps = Raise e → is_file_system_error e = true.
Proof.
  revert cur. induction comps as [|c cs IH]; intros cur; simpl; [done|].
  destruct (t !! cur) as [[|?]|]; [by apply IH|by intros [= <-]..].
Qed.

Lemma lookup_parent_raises w name e :
  lookup_parent w name = Raise e → is_file_system_error e = true.
Proof.
  unfold lookup_parent. destruct (String.eqb name ""); [by intros [= <-]|].
  destruct (walk _ _ _) as [d|e'] eqn:E.
  - destruct (fs w !! d) as [[|?]|]; [done|by intros [= <-]..].
  - intros [= <-]. by eapply walk_raises.
Qed.

Lemma mkdir_raises name w e w' :
  mkdir name w = (Raise e, w') → is_file_system_error e = true ∧ w' = w.
Proof.
  unfold mkdir. destruct (String.eqb name ""); [by intros [= <- <-]|].
  destruct (all_sep name); [by intros [= <- <-]|].
  destruct (lookup_parent _ _) as [[d c]|e'] eqn:E.
  - destruct (is_dot c); [by intros [= <- <-]|].
    destruct (fs w !! _); [by intros [= <- <-]|done].
  - intros [= <- <-]. split; [|done]. by eapply lookup_parent_raises.
Qed.

Lemma mkdir_grows name w r w' : mkdir name w = (r, w') → grows w w'.
Proof.
  unfold mkdir. destruct (String.eqb name ""); [intros [= <- <-]; apply grows_refl|].
  destruct (all_sep name); [intros [= <- <-]; apply grows_refl|].
  destruct (lookup_parent _ _) as [[d c]|e']; [|intros [= <- <-]; apply grows_refl].
  destruct (is_dot c); [intros [= <- <-]; apply grows_refl|].
  destruct (fs w !! (d ++ [c])) eqn:E; intros [= <- <-]; [apply grows_refl|].
  repeat split. simpl. intros p. destruct (decide (d ++ [c] = p)) as [<-|Hne].
  - right. by rewrite lookup_insert_eq.
  - left. by rewrite lookup_insert_ne.
Qed.

Lemma makedirs_rec_grows n name w r w' :
  makedirs_rec n name w = (r, w') → grows w w'.
Proof.
  revert name w r w'. induction n as [|n IH]; intros name w r w'; simpl.
  - intros [= <- <-]. apply grows_refl.
  - destruct (posixpath.split name) as [h0 t0].
    destruct (if String.eqb t0 "" then posixpath.split h0 else (h0, t0)) as [h t].
    destruct (_ && _); [|apply mkdir_grows].
    destruct (makedirs_rec n h w) as [[[]|e] w1] eqn:E; apply IH in E.
    + destruct (String.eqb t ".").
      * by intros [= <- <-].
      * intros H%mkdir_grows. by eapply grows_trans.
    + destruct e; try (intros [= <- <-]; done).
      destruct (String.eqb t ".").
      * by intros [= <- <-].
      * intros H%mkdir_grows. by eapply grows_trans.
Qed.

Lemma eqb_empty_length s : String.eqb s "" = false → 0 < String.length s.
Proof. destruct s; simpl; [done|lia]. Qed.

(** The recursion of [os.makedirs] is no deeper than the name is long:
    when more calls than that are allowed, [RecursionError] is not
    raised, and whatever is raised comes from the file system. *)
Lemma makedirs_rec_raises n name w e w' :
  String.length name < n →
  makedirs_rec n name w = (Raise e, w') → is_file_system_error e = true.
Proof.
  revert name w e w'. induction n as [|n IH]; intros name w e w' Hn; [lia|].
  simpl. destruct (posixpath.split name) as [h0 t0] eqn:E0.
  apply split_length in E0.
  destruct (if String.eqb t0 "" then posixpath.split h0 else (h0, t0))
    as [h t] eqn:E1.
  assert (String.length h + String.length t ≤ String.length name) as Hlen.
  { destruct (String.eqb t0 ""); [apply split_length in E1|injection E1 as <- <-]; lia. }
  destruct (negb (String.eqb h "") && negb (String.eqb t "") && _) eqn:C;
    [|by intros [? _]%mkdir_raises].
  apply andb_true_iff in C as [[_ Ht%negb_true_iff]%andb_true_iff _].
  apply eqb_empty_length in Ht.
  destruct (makedirs_rec n h w) as [[[]|e1] w1] eqn:E.
  - destruct (String.eqb t "."); [done|by intros [? _]%mkdir_raises].
  - apply IH in E; [|lia].
    destruct e1; try (by intros [= <- <-]);
      (destruct (String.eqb t "."); [done|by intros [? _]%mkdir_raises]).
Qed.

Lemma makedirs_grows name w r w' :
  os.makedirs name w = (r, w') →
  log w' = log w ++ [Makedirs name] ∧ cwd w' = cwd w ∧
  ∀ p, fs w' !! p = fs w !! p ∨ (fs w !! p = None ∧ fs w' !! p = Some Dir).
Proof. unfold os.makedirs. by intros (? & ? & ?)%makedirs_rec_grows. Qed.

Lemma makedirs_raises name w e w' :
  String.length name < recursion_limit →
  os.makedirs name w = (Raise e, w') → is_file_system_error e = true.
Proof. unfold os.makedirs. apply makedirs_rec_raises. Qed.

(** [open(name, 'wb')] raises and leaves the world alone, or returns a
    file, new or emptied, where no directory was. *)
Lemma open_wb_cases name w r w1 :
  open_wb name w = (r, w1) →
  (w1 = w ∧ ∃ e, r = Raise e) ∨
  (∃ t, r = Ok t ∧ fs w !! t ≠ Some Dir ∧
        w1 = set_fs (<[t := File []]> (fs w)) w).
Proof.
  unfold open_wb. destruct (endswith_sep name && negb (all_sep name)).
  - destruct (lookup_parent _ _) as [[d c]|e]; [|intros [= <- <-]; left; eauto].
    destruct (fs w !! (d ++ [c])) as [[|?]|]; [|destruct (is_dot c)|];
      intros [= <- <-]; left; eauto.
  - destruct (lookup_parent _ _) as [[d c]|e]; [|intros [= <- <-]; left; eauto].
    destruct (is_dot c); [intros [= <- <-]; left; eauto|].
    destruct (fs w !! (d ++ [c])) as [[|old]|] eqn:E; intros [= <- <-];
      [left; eauto|right; exists (d ++ [c]); by rewrite E..].
Qed.

(** [urlretrieve] logs its call.  Then it raises with nothing written,
    or it has put into one file, where no directory was, the whole body
    and returns, or the part that was written and raises. *)
Lemma urlretrieve_cases net url filename w r w' :
  urllib.urlretrieve net url filename w = (r, w') →
  (w' = tell (Urlretrieve url filename) w ∧ ∃ e, r = Raise e) ∨
  (∃ t data,
     fs w !! t ≠ Some Dir ∧
     w' = set_fs (<[t := File data]> (fs w)) (tell (Urlretrieve url filename) w) ∧
     (r = Ok tt ∧ net (length (log w)) url = Complete data ∨
      ∃ e, r = Raise e ∧ net (length (log w)) url = Interrupted data e)).
Proof.
  unfold urllib.urlretrieve, bind, write, raise.
  destruct (net _ _) as [e|body|written e]; [intros [= <- <-]; left; eauto|..];
    (destruct (open_wb _ _) as [r1 w1] eqn:E;
     apply open_wb_cases in E as [[-> [e1 ->]]|(t & -> & Ht & ->)];
     [intros [= <- <-]; left; eauto|]);
    intros [= <- <-]; right; exists t; eexists; (split; [exact Ht|]);
    unfold set_fs; simpl; rewrite alter_insert_eq; simpl; eauto.
Qed.

(** [urlretrieve] logs its call, stays in the working directory and
    leaves every directory a directory. *)
Lemma urlretrieve_frame net url filename w r w' :
  urllib.urlretrieve net url filename w = (r, w') →
  log w' = log w ++ [Urlretrieve url filename] ∧ cwd w' = cwd w ∧
  ∀ p, fs w !! p = Some Dir → fs w' !! p = Some Dir.
Proof.
  intros [[-> _]|(t & data & Ht & -> & _)]%urlretrieve_cases; [done|].
  repeat split. simpl. intros p Hp.
  rewrite lookup_insert_ne; [done|]. intros ->. done.
Qed.

(** A call that returns was answered in full. *)
Lemma urlretrieve_ok net url filename w w' :
  urllib.urlretrieve net url filename w = (Ok tt, w') →
  ∃ data, net (length (log w)) url = Complete data.
Proof.
  intros [[_ [e ?]]|(t & data & _ & _ & [[_ Hnet]|(e & ? & _)])]%urlretrieve_cases;
    [done|by exists data|done].
Qed.

End calls.

(** * The loop *)

Section loop.

Variables (net : network) (website dest : string).

Implicit Types (w : world) (l : list string).


Lemma fetch_all_unfold files w :
  fetch_all net website files dest w =
    match os.makedirs dest w with
    | (Ok _, w1) => for_each files (body net website dest) w1
    | (Raise e, w1) => (Raise e, w1)
    end.
Proof. reflexivity. Qed.

Lemma for_each_app l1 l2 w :
  for_each (l1 ++ l2) (body net website dest) w =
    match for_each l1 (body net website dest) w with
    | (Ok _, w1) => for_each l2 (body net website dest) w1
    | (Raise e, w1) => (Raise e, w1)
    end.
Proof.
  revert w. induction l1 as [|f l1 IH]; intros w; simpl; [done|].
  unfold bind. destruct (body net website dest f w) as [[[]|e] w1]; [apply IH|done].
Qed.

(** Whatever the manifest: the calls are logged in manifest order, one
    per entry up to the entry that raises, and directories stay. *)
Lemma for_each_log l w r w' :
  for_each l (body net website dest) w = (r, w') →
  cwd w' = cwd w ∧
  (∀ p, fs w !! p = Some Dir → fs w' !! p = Some Dir) ∧
  ∃ k, k ≤ length l ∧
       log w' = log w ++ (fetch_of website dest <$> take k l) ∧
       (r = Ok tt → k = length l).
Proof.
  revert w. induction l as [|f l IH]; intros w; simpl.
  - intros [= <- <-]. repeat split; [done|]. exists 0.
    by rewrite app_nil_r.
  - unfold bind. destruct (body net website dest f w) as [[[]|e] w1] eqn:E;
      apply urlretrieve_frame in E as (Hlog & Hcwd & Hdir).
    + intros (Hcwd' & Hdir' & k & Hk & Hlog' & Hr)%IH.
      split; [congruence|]. split; [auto|]. exists (S k).
      split; [lia|]. split; [|auto].
      rewrite Hlog', Hlog, <- app_assoc. done.
    + intros [= <- <-]. split; [done|]. split; [done|]. exists 1.
      split; [lia|]. split; [|done]. by rewrite Hlog.
Qed.

Hypothesis dest_bare : bare dest = true.


(** One turn of the loop for a bare name, in full. *)
Lemma body_in f w :
  bare f = true → ready dest w →
  body net website dest f w =
    let w1 := tell (fetch_of website dest f) w in
    let target := D dest w ++ [f] in
    match net (length (log w)) (website +:+ f) with
    | Failed e => (Raise e, w1)
    | Complete data =>
        match fs w !! target with
        | Some Dir => (Raise IsADirectoryError, w1)
        | _ => (Ok tt, set_fs (<[target := File data]> (fs w)) w1)
        end
    | Interrupted written e =>
        match fs w !! target with
        | Some Dir => (Raise IsADirectoryError, w1)
        | _ => (Raise e, set_fs (<[target := File written]> (fs w)) w1)
        end
    end.
Proof.
  intros Hf [Hcwd HD]. unfold body, urllib.urlretrieve, fetch_of, D in *.
  rewrite (join_bare _ _ dest_bare (bare_not_abs _ Hf)).
  destruct (net _ _) as [e0|data|got e0]; [done|..];
    unfold bind; rewrite (open_wb_in _ _ _ dest_bare Hf) by done; simpl;
    rewrite <- app_assoc; simpl;
    destruct (fs w !! (cwd w ++ [dest; f])) as [[|old]|]; try done;
    unfold write, raise, set_fs; simpl;
    by rewrite alter_insert_eq.
Qed.

(** A turn for a bare name touches its own file and nothing else. *)
Lemma body_frame f w r w' :
  bare f = true → ready dest w → body net website dest f w = (r, w') →
  ready dest w' ∧
  (∀ p, p ≠ D dest w ++ [f] → fs w' !! p = fs w !! p) ∧
  (fs w' !! (D dest w ++ [f]) = fs w !! (D dest w ++ [f]) ∨
   ∃ data, fs w' !! (D dest w ++ [f]) = Some (File data)).
Proof.
  intros Hf Hw E. pose proof E as E'.
  apply urlretrieve_frame in E' as (_ & Hcwd & Hdir).
  split. { destruct Hw. split; unfold D; rewrite Hcwd; auto. }
  rewrite (body_in _ _ Hf Hw) in E. simpl in E.
  destruct (net _ _) as [e0|data|got e0];
    [injection E as <- <-; by split; [|left]|..];
    (destruct (fs w !! (D dest w ++ [f])) as [[|old]|] eqn:Et;
      injection E as <- <-; simpl;
      [by split; [|left]|split; [intros; by rewrite lookup_insert_ne|right]..];
      eexists; by rewrite lookup_insert_eq).
Qed.

(** The loop over bare names touches the files of its entries only, and
    what it puts there are files. *)
Lemma for_each_frame l w r w' :
  Forall (λ f, bare f = true) l → ready dest w → for_each l (body net website dest) w = (r, w') →
  ready dest w' ∧
  ∀ p, fs w' !! p = fs w !! p ∨
       ∃ f data, f ∈ l ∧ p = D dest w ++ [f] ∧ fs w' !! p = Some (File data).
Proof.
  intros Hl. revert w. induction Hl as [|f l Hf Hl IH]; intros w Hw; simpl.
  - intros [= <- <-]. split; [done|]. by left.
  - unfold bind. destruct (body net website dest f w) as [[[]|e] w1] eqn:E.
    + pose proof E as (_ & Hcwd & _)%urlretrieve_frame.
      apply (body_frame _ _ _ _ Hf Hw) in E as (Hw1 & Hoth & Hown).
      intros (Hw' & Hrest)%IH; [|done]. split; [done|]. intros p.
      assert (D dest w1 = D dest w) as HD by (unfold D; by rewrite Hcwd).
      destruct (Hrest p) as [Ep|(g & data & Hg & -> & Ep)].
      * rewrite Ep. destruct (decide (p = D dest w ++ [f])) as [->|Hne].
        -- destruct Hown as [->|[data Hd]]; [by left|].
           right. exists f, data. split; [by left|done].
        -- left. by apply Hoth.
      * right. exists g, data. rewrite <- HD. split; [by right|done].
    + intros [= <- <-].
      apply (body_frame _ _ _ _ Hf Hw) in E as (Hw1 & Hoth & Hown).
      split; [done|]. intros p.
      destruct (decide (p = D dest w ++ [f])) as [->|Hne].
      * destruct Hown as [->|[data Hd]]; [by left|].
        right. exists f, data. split; [by left|done].
      * left. by apply Hoth.
Qed.

Lemma for_each_flat l w r w' :
  Forall (λ f, bare f = true) l → ready dest w → flat dest w →
  for_each l (body net website dest) w = (r, w') → flat dest w'.
Proof.
  intros Hl Hw Hflat E c. pose proof E as (Hcwd & _)%for_each_log.
  apply (for_each_frame _ _ _ _ Hl Hw) in E as [_ E].
  unfold D in *. rewrite Hcwd.
  destruct (E (((cwd w ++ [dest]) ++ [c]))) as [->|(g & data & _ & _ & ->)];
    [apply Hflat|done].
Qed.

(** A turn that returns has received the whole response and stored it. *)
Lemma body_ok f w w1 :
  bare f = true → ready dest w → body net website dest f w = (Ok tt, w1) →
  ∃ data, net (length (log w)) (website +:+ f) = Complete data ∧
          w1 = set_fs (<[D dest w ++ [f] := File data]> (fs w))
                 (tell (fetch_of website dest f) w).
Proof.
  intros Hf Hw. rewrite (body_in _ _ Hf Hw). simpl.
  destruct (net _ _) as [e0|data|got e0]; [done|..];
    destruct (fs w !! (D dest w ++ [f])) as [[|old]|]; intros [= <-]; by exists data.
Qed.

(** After a loop over bare names that returns, the file of an entry
    holds the bytes served for the last entry of that name, at the time
    of that request. *)
Lemma for_each_success l w w' :
  Forall (λ f, bare f = true) l → ready dest w →
  for_each l (body net website dest) w = (Ok tt, w') →
  ∀ i f, l !! i = Some f → f ∉ drop (S i) l →
    ∃ data, net (length (log w) + i) (website +:+ f) = Complete data ∧
            fs w' !! (D dest w ++ [f]) = Some (File data).
Proof.
  intros Hl. revert w. induction Hl as [|g l Hg Hl IH]; intros w Hw; [done|].
  simpl. unfold bind. destruct (body net website dest g w) as [[[]|e] w1] eqn:E; [|done].
  intros Hrest i f Hi Hlast.
  pose proof (body_frame _ _ _ _ Hg Hw E) as (Hw1 & _ & _).
  apply (body_ok _ _ _ Hg Hw) in E as (data & Hnet & ->).
  destruct i as [|i]; simpl in Hi, Hlast.
  - injection Hi as ->. exists data. rewrite Nat.add_0_r. split; [done|].
    apply (for_each_frame _ _ _ _ Hl Hw1) in Hrest as [_ Hrest].
    destruct (Hrest (D dest w ++ [f])) as [->|(h & ? & Hh & Eh & _)].
    + simpl. by rewrite lookup_insert_eq.
    + apply app_inj_tail in Eh as [_ ->]. done.
  - destruct (IH _ Hw1 Hrest i f Hi Hlast) as (data' & Hnet' & Hfs).
    exists data'. split; [|done].
    simpl in Hnet'. rewrite length_app in Hnet'. simpl in Hnet'.
    by replace (length (log w) + S i) with (length (log w) + 1 + i) by lia.
Qed.

Lemma body_flat f w r w1 :
  bare f = true → ready dest w → flat dest w → body net website dest f w = (r, w1) → flat dest w1.
Proof.
  intros Hf Hw Hflat E.
  apply (for_each_flat [f] w r w1); [by repeat constructor|done..|].
  simpl. unfold bind. rewrite E. by destruct r as [[]|].
Qed.

(** A loop over bare names in a directory without subdirectories
    returns when every request is answered in full. *)
Lemma for_each_completes l w :
  Forall (λ f, bare f = true) l → ready dest w → flat dest w →
  (∀ i f, l !! i = Some f →
     ∃ data, net (length (log w) + i) (website +:+ f) = Complete data) →
  ∃ w', for_each l (body net website dest) w = (Ok tt, w').
Proof.
  intros Hl. revert w. induction Hl as [|g l Hg Hl IH]; intros w Hw Hflat Hnet.
  - by eexists.
  - simpl. unfold bind. destruct (body net website dest g w) as [r w1] eqn:E.
    pose proof (body_flat _ _ _ _ Hg Hw Hflat E) as Hflat1.
    pose proof (body_frame _ _ _ _ Hg Hw E) as (Hw1 & _ & _).
    pose proof E as (Hlog & _)%urlretrieve_frame.
    rewrite (body_in _ _ Hg Hw) in E. simpl in E.
    destruct (Hnet 0 g eq_refl) as (data & Hdata).
    rewrite Nat.add_0_r in Hdata. rewrite Hdata in E.
    assert (r = Ok tt) as ->.
    { destruct (fs w !! (D dest w ++ [g])) as [[|old]|] eqn:Et;
        [by apply Hflat in Et|by injection E..]. }
    apply IH; [done..|]. intros i f Hi.
    destruct (Hnet (S i) f Hi) as (d & Hd). exists d.
    rewrite <- Hd, Hlog, length_app. f_equal. simpl. lia.
Qed.

End loop.

(** * Directory creation *)

Section directory.

Implicit Types (w : world) (net : network).

(** On a single bare name [os.makedirs] is [os.mkdir] in the working
    directory. *)
Lemma makedirs_single name w :
  bare name = true →
  os.makedirs name w =
    let w1 := tell (Makedirs name) w in
    match fs w !! cwd w with
    | Some Dir =>
        match fs w !! (cwd w ++ [name]) with
        | Some _ => (Raise FileExistsError, w1)
        | None => (Ok tt, set_fs (<[cwd w ++ [name] := Dir]> (fs w)) w1)
        end
    | Some (File _) => (Raise NotADirectoryError, w1)
    | None => (Raise FileNotFoundError, w1)
    end.
Proof. intros H. by rewrite (makedirs_bare _ _ H), (mkdir_bare _ _ H). Qed.

Lemma makedirs_single_ok name w w1 :
  bare name = true → os.makedirs name w = (Ok tt, w1) →
  fs w !! cwd w = Some Dir ∧ fs w !! (cwd w ++ [name]) = None ∧
  w1 = set_fs (<[cwd w ++ [name] := Dir]> (fs w)) (tell (Makedirs name) w).
Proof.
  intros H. rewrite (makedirs_single _ _ H). simpl.
  destruct (fs w !! cwd w) as [[|?]|]; [|done..].
  destruct (fs w !! (cwd w ++ [name])); [done|]. by intros [= <-].
Qed.

Lemma makedirs_single_raise name w e w1 :
  bare name = true → os.makedirs name w = (Raise e, w1) →
  w1 = tell (Makedirs name) w.
Proof.
  intros H. rewrite (makedirs_single _ _ H). simpl.
  destruct (fs w !! cwd w) as [[|?]|]; [|by intros [= _ <-]..].
  destruct (fs w !! (cwd w ++ [name])); [by intros [= _ <-]|done].
Qed.

(** The world right after the directory has been created. *)
Lemma created_ready dest w :
  fs w !! cwd w = Some Dir →
  ready dest (set_fs (<[cwd w ++ [dest] := Dir]> (fs w)) (tell (Makedirs dest) w)).
Proof.
  intros Hcwd. split; unfold D; simpl.
  - rewrite lookup_insert_ne; [done|]. intros E.
    apply (f_equal length) in E. rewrite length_app in E. simpl in E. lia.
  - by rewrite lookup_insert_eq.
Qed.

Lemma created_empty dest w c :
  tree (fs w) → fs w !! (cwd w ++ [dest]) = None →
  <[cwd w ++ [dest] := Dir]> (fs w) !! ((cwd w ++ [dest]) ++ [c]) = None.
Proof.
  intros Ht Habs. rewrite lookup_insert_ne.
  - by apply tree_absent_empty.
  - intros E. apply (f_equal length) in E. rewrite !length_app in E. simpl in E. lia.
Qed.

Lemma created_flat dest w :
  tree (fs w) → fs w !! (cwd w ++ [dest]) = None →
  flat dest (set_fs (<[cwd w ++ [dest] := Dir]> (fs w)) (tell (Makedirs dest) w)).
Proof. intros Ht Habs c. unfold D. simpl. by rewrite created_empty. Qed.

(** The log of a run: the creation of the directory, then the fetches
    in manifest order up to where the run stops. *)
Lemma fetch_all_log net website files dest w r w' :
  fetch_all net website files dest w = (r, w') →
  cwd w' = cwd w ∧
  ∃ k, k ≤ length files ∧
       log w' = log w ++ Makedirs dest :: (fetch_of website dest <$> take k files) ∧
       (r = Ok tt → k = length files).
Proof.
  rewrite fetch_all_unfold.
  destruct (os.makedirs dest w) as [[[]|e] w1] eqn:E;
    apply makedirs_grows in E as (Hlog & Hcwd & _).
  - intros (Hcwd' & _ & k & Hk & Hlog' & Hr)%for_each_log.
    split; [congruence|]. exists k. split; [done|]. split; [|done].
    by rewrite Hlog', Hlog, <- app_assoc.
  - intros [= <- <-]. split; [done|]. exists 0. split; [lia|]. by rewrite take_0.
Qed.

End directory.

(** * The claims *)


Lemma tree_home : tree (fs home).
Proof.
  intros p n. simpl. intros [[<- _]|[_ [<- _]%lookup_singleton_Some]]%lookup_insert_Some.
  - by left.
  - by right.
Qed.

(** C3.  The run starts with the one call that creates the directory
    and makes no other such call: its log is that call followed by
    fetches only.  When the call returns, for a single name as the
    script's [imgs], the directory was not there before, is there right
    after the call, before any fetch, and is still there when the run
    ends.  When the call raises, the run ends with that exception, with
    no request made and no file written: nothing changes but for
    directories the call itself may have added on the way, and for a
    single name nothing at all.  A plain file at the path makes it raise
    [FileExistsError]. *)
Theorem directory_created_once_first net website files dest w r w' :
  fetch_all net website files dest w = (r, w') →
  (∃ k, log w' = log w ++ Makedirs dest :: (fetch_of website dest <$> take k files)) ∧
  (∀ w0, bare dest = true → os.makedirs dest w = (Ok tt, w0) →
     fs w !! (cwd w ++ [dest]) = None ∧
     fs w0 !! (cwd w ++ [dest]) = Some Dir ∧
     log w0 = log w ++ [Makedirs dest] ∧
     fs w' !! (cwd w ++ [dest]) = Some Dir) ∧
  (∀ e w1, os.makedirs dest w = (Raise e, w1) →
     r = Raise e ∧
     log w' = log w ++ [Makedirs dest] ∧
     requests (log w') = requests (log w) ∧
     (∀ p, fs w' !! p = fs w !! p ∨ (fs w !! p = None ∧ fs w' !! p = Some Dir)) ∧
     (bare dest = true → fs w' = fs w)) ∧
  (∀ old, bare dest = true → fs w !! cwd w = Some Dir →
     fs w !! (cwd w ++ [dest]) = Some (File old) →
     r = Raise FileExistsError ∧ fs w' = fs w ∧ log w' = log w ++ [Makedirs dest]).
Proof.
  intros Hrun. split; [|split; [|split]].
  - apply fetch_all_log in Hrun as (_ & k & _ & Hlog & _). by exists k.
  - intros w0 Hd Hmk. rewrite fetch_all_unfold, Hmk in Hrun.
    apply (makedirs_single_ok _ _ _ Hd) in Hmk as (Hcwd & Habs & ->).
    apply for_each_log in Hrun as (_ & Hdirs & _).
    assert (fs (set_fs (<[cwd w ++ [dest] := Dir]> (fs w)) (tell (Makedirs dest) w))
              !! (cwd w ++ [dest]) = Some Dir) as Hthere
      by (simpl; by rewrite lookup_insert_eq).
    split; [done|]. split; [done|]. split; [done|]. by apply Hdirs.
  - intros e w1 E. rewrite fetch_all_unfold, E in Hrun. injection Hrun as <- <-.
    pose proof (makedirs_grows _ _ _ _ E) as (Hlog & _ & Hfs).
    split; [done|]. split; [done|]. split; [|split; [done|]].
    + rewrite Hlog. unfold requests. by rewrite omap_app, app_nil_r.
    + intros Hd. by rewrite (makedirs_single_raise _ _ _ _ Hd E).
  - intros old Hd Hcwd Hfile.
    rewrite fetch_all_unfold, (makedirs_single _ _ Hd) in Hrun. simpl in Hrun.
    rewrite Hcwd, Hfile in Hrun. by injection Hrun as <- <-.
Qed.

Lemma directory_created_once_first_witness :
  (∃ r w', fetch_all serving website ["a.jpg"] "imgs" home_with_file = (r, w') ∧
           r = Raise FileExistsError ∧ fs w' = fs home_with_file ∧
           log w' = [Makedirs "imgs"]) ∧
  (fs home !! ["home"; "imgs"] = None ∧
   fs (os.makedirs "imgs" home).2 !! ["home"; "imgs"] = Some Dir ∧
   log (os.makedirs "imgs" home).2 = [Makedirs "imgs"] ∧
   fs (fetch_all serving website ["a.jpg"] "imgs" home).2 !! ["home"; "imgs"]
     = Some Dir).
Proof.
  split.
  - eexists _, _. split; [reflexivity|].
    eapply (proj2 (proj2 (proj2 (directory_created_once_first
              serving website ["a.jpg"] "imgs" home_with_file _ _ eq_refl)))).
    + reflexivity.
    + reflexivity.
    + vm_compute. reflexivity.
  - apply (proj1 (proj2 (directory_created_once_first
             serving website ["a.jpg"] "imgs" home
             (fetch_all serving website ["a.jpg"] "imgs" home).1
             (fetch_all serving website ["a.jpg"] "imgs" home).2
             ltac:(vm_compute; reflexivity)))).
    + reflexivity.
    + vm_compute. reflexivity.
Defined.

(** C5.  Once a run has created the directory, however that run ended, a
    second run in the world it left raises [FileExistsError] at its
    first call, [os.makedirs], before any fetch: it makes no request and
    leaves the file system as it found it. *)
Theorem second_run_fails_at_creation
    net1 net2 website files dest w w0 r1 w1 :
  bare dest = true →
  os.makedirs dest w = (Ok tt, w0) →
  fetch_all net1 website files dest w = (r1, w1) →
  fetch_all net2 website files dest w1 =
    (Raise FileExistsError, tell (Makedirs dest) w1).
Proof.
  intros Hd Hmk Hrun. rewrite fetch_all_unfold, Hmk in Hrun.
  apply (makedirs_single_ok _ _ _ Hd) in Hmk as (Hcwd & _ & ->).
  apply for_each_log in Hrun as (Hcwd1 & Hdirs & _).
  pose proof (created_ready dest w Hcwd) as [Hc HD].
  apply Hdirs in Hc, HD. unfold D in *. simpl in *.
  rewrite fetch_all_unfold, (makedirs_single _ _ Hd). simpl.
  by rewrite Hcwd1, Hc, HD.
Qed.

Lemma second_run_fails_at_creation_witness :
  ∃ w1, fetch_all serving website ["a.jpg"; "b.jpg"] "imgs" home = (Ok tt, w1) ∧
        fetch_all serving website ["a.jpg"; "b.jpg"] "imgs" w1 =
          (Raise FileExistsError, tell (Makedirs "imgs") w1).
Proof.
  eexists. split; [vm_compute; reflexivity|].
  eapply (second_run_fails_at_creation serving serving website
            ["a.jpg"; "b.jpg"] "imgs" home).
  - reflexivity.
  - vm_compute. reflexivity.
  - vm_compute. reflexivity.
Defined.


(** [os.makedirs] itself goes further when it is given a path of several
    names: for [a/b] in an empty directory it makes [a] and then [a/b].
    The script gives it the single name [imgs]. *)
Example makedirs_nested_path :
  os.makedirs "a/b" home =
    (Ok tt, {| fs := {[ [] := Dir; ["home"] := Dir;
                        ["home"; "a"] := Dir; ["home"; "a"; "b"] := Dir ]};
               cwd := ["home"]; log := [Makedirs "a/b"] |}).
Proof. vm_compute. reflexivity. Qed.

(** C6.  For a single name, as the script's [imgs], the creation of the
    directory makes that one directory and no other: when it returns,
    the directory that holds it, the working directory, was there
    already, the name was not, and the file system differs by that one
    new directory.  A missing parent is not created: the call raises
    [FileNotFoundError] and leaves the file system as it was.  However
    the call ends, nothing changes at any other path. *)
Theorem creation_is_single_level dest w r w0 :
  bare dest = true →
  os.makedirs dest w = (r, w0) →
  (r = Ok tt →
     fs w !! cwd w = Some Dir ∧ fs w !! (cwd w ++ [dest]) = None ∧
     fs w0 = <[cwd w ++ [dest] := Dir]> (fs w)) ∧
  (fs w !! cwd w = None → r = Raise FileNotFoundError ∧ fs w0 = fs w) ∧
  (∀ p, p ≠ cwd w ++ [dest] → fs w0 !! p = fs w !! p).
Proof.
  intros Hd Hmk. rewrite (makedirs_single _ _ Hd) in Hmk. simpl in Hmk.
  destruct (fs w !! cwd w) as [[|?]|] eqn:Hcwd;
    [destruct (fs w !! (cwd w ++ [dest])) eqn:Hthere|..];
    injection Hmk as <- <-; simpl; repeat split; try done.
  intros p Hp. by rewrite lookup_insert_ne.
Qed.

Lemma creation_is_single_level_witness :
  (fs home !! cwd home = Some Dir ∧ fs home !! (cwd home ++ ["imgs"]) = None ∧
   fs (os.makedirs "imgs" home).2 = <[cwd home ++ ["imgs"] := Dir]> (fs home)) ∧
  ((os.makedirs "imgs" adrift).1 = Raise FileNotFoundError ∧
   fs (os.makedirs "imgs" adrift).2 = fs adrift).
Proof.
  split.
  - apply (creation_is_single_level "imgs" home
             (os.makedirs "imgs" home).1 (os.makedirs "imgs" home).2 eq_refl).
    + vm_compute. reflexivity.
    + vm_compute. reflexivity.
  - apply (creation_is_single_level "imgs" adrift
             (os.makedirs "imgs" adrift).1 (os.makedirs "imgs" adrift).2 eq_refl).
    + vm_compute. reflexivity.
    + reflexivity.
Defined.

(** C7.  With nothing to fetch the run creates the directory, makes no
    request and returns. *)
Theorem empty_manifest_creates_directory net website dest w :
  bare dest = true →
  fs w !! cwd w = Some Dir → fs w !! (cwd w ++ [dest]) = None →
  fetch_all net website [] dest w =
    (Ok tt, set_fs (<[cwd w ++ [dest] := Dir]> (fs w)) (tell (Makedirs dest) w))
  ∧ requests (log (fetch_all net website [] dest w).2) = requests (log w).
Proof.
  intros Hd Hcwd Habs.
  assert (fetch_all net website [] dest w =
    (Ok tt, set_fs (<[cwd w ++ [dest] := Dir]> (fs w)) (tell (Makedirs dest) w)))
    as E.
  { rewrite fetch_all_unfold, (makedirs_single _ _ Hd). simpl.
    by rewrite Hcwd, Habs. }
  split; [done|]. rewrite E. simpl. unfold requests.
  by rewrite omap_app, app_nil_r.
Qed.

Lemma empty_manifest_creates_directory_witness :
  fetch_all serving website [] "imgs" home =
    (Ok tt, set_fs (<[["home"; "imgs"] := Dir]> (fs home))
              (tell (Makedirs "imgs") home))
  ∧ requests (log (fetch_all serving website [] "imgs" home).2) = [].
Proof.
  apply (empty_manifest_creates_directory serving website "imgs" home);
    reflexivity.
Defined.

(** * What a run leaves in the directory *)

Section directory_contents.

Variables (net : network) (website dest : string).

Hypothesis dest_bare : bare dest = true.

Implicit Types (w : world) (l : list string).

Lemma for_each_present l w w' :
  Forall (λ f, bare f = true) l → ready dest w →
  for_each l (body net website dest) w = (Ok tt, w') →
  ∀ f, f ∈ l → ∃ data, fs w' !! (D dest w ++ [f]) = Some (File data).
Proof.
  intros Hl. revert w. induction Hl as [|g l Hg Hl IH]; intros w Hw.
  - intros _ f Hf. by apply elem_of_nil in Hf.
  - simpl. unfold bind.
    destruct (body net website dest g w) as [[[]|e] w1] eqn:E; [|done].
    intros Hrest f Hf.
    pose proof (body_frame _ _ _ dest_bare _ _ _ _ Hg Hw E) as (Hw1 & _ & _).
    pose proof E as (_ & Hcwd & _)%urlretrieve_frame.
    assert (D dest w1 = D dest w) as HD by (unfold D; by rewrite Hcwd).
    apply elem_of_cons in Hf as [->|Hf].
    + apply (body_ok _ _ _ dest_bare _ _ _ Hg Hw) in E as (data & _ & ->).
      apply (for_each_frame _ _ _ dest_bare _ _ _ _ Hl Hw1) in Hrest as [_ Hrest].
      destruct (Hrest (D dest w ++ [g])) as [->|(h & d & _ & _ & ->)]; [|by eexists].
      exists data. simpl. by rewrite lookup_insert_eq.
    + rewrite <- HD. by apply (IH _ Hw1 Hrest).
Qed.

(** The listing of the directory after a loop that found it empty and
    left a file for every entry. *)
Lemma listdir_after l w r w' :
  Forall (λ f, bare f = true) l → ready dest w →
  (∀ c, fs w !! (D dest w ++ [c]) = None) →
  for_each l (body net website dest) w = (r, w') →
  (∀ f, f ∈ l → is_Some (fs w' !! (D dest w ++ [f]))) →
  listdir (fs w') (D dest w) = list_to_set l.
Proof.
  intros Hl Hw Hempty Hrun Hall. apply set_eq. intros c.
  rewrite elem_of_listdir, elem_of_list_to_set. split; [|apply Hall].
  intros Hc. apply (for_each_frame _ _ _ dest_bare _ _ _ _ Hl Hw) in Hrun as [_ Hrun].
  destruct (Hrun (D dest w ++ [c])) as [E|(g & _ & Hg & E & _)].
  - rewrite E, Hempty in Hc. by destruct Hc.
  - by apply app_inj_tail in E as [_ ->].
Qed.

Lemma listdir_insert (t : gmap (list string) node) d c n :
  listdir (<[d ++ [c] := n]> t) d = {[c]} ∪ listdir t d.
Proof.
  apply set_eq. intros x.
  rewrite elem_of_union, elem_of_singleton, !elem_of_listdir.
  destruct (decide (x = c)) as [->|Hne].
  - rewrite lookup_insert_eq. split; [by left|by eexists].
  - rewrite lookup_insert_ne; [split; [by right|by intros [?|?]]|].
    intros E. by apply app_inj_tail in E as [_ ->].
Qed.

(** A request that is not answered in full makes the call raise. *)
Lemma urlretrieve_incomplete url filename w :
  (∀ data, net (length (log w)) url ≠ Complete data) →
  ∃ e w', urllib.urlretrieve net url filename w = (Raise e, w').
Proof.
  intros Hnet. destruct (urllib.urlretrieve net url filename w) as [[[]|e] w'] eqn:E.
  - apply urlretrieve_ok in E as [data E]. by destruct (Hnet data).
  - by exists e, w'.
Qed.

Lemma urlretrieve_failed url filename w e :
  net (length (log w)) url = Failed e →
  urllib.urlretrieve net url filename w =
    (Raise e, tell (Urlretrieve url filename) w).
Proof. intros Hnet. unfold urllib.urlretrieve. by rewrite Hnet. Qed.

(** The world after the directory has been created and a first stretch
    [pre] of the manifest has been fetched in full. *)
Lemma fetched_prefix pre w :
  Forall (λ g, bare g = true) pre → tree (fs w) →
  fs w !! cwd w = Some Dir → fs w !! (cwd w ++ [dest]) = None →
  (∀ i g, pre !! i = Some g →
     ∃ data, net (S (length (log w)) + i) (website +:+ g) = Complete data) →
  ∃ w0 w1,
    os.makedirs dest w = (Ok tt, w0) ∧
    for_each pre (body net website dest) w0 = (Ok tt, w1) ∧
    cwd w1 = cwd w ∧ ready dest w1 ∧ flat dest w1 ∧
    log w1 = log w ++ Makedirs dest :: (fetch_of website dest <$> pre) ∧
    listdir (fs w1) (cwd w ++ [dest]) = list_to_set pre ∧
    (∀ p, (∀ c, p ≠ cwd w ++ [dest; c]) → p ≠ cwd w ++ [dest] →
          fs w1 !! p = fs w !! p).
Proof.
  intros Hpre Ht Hcwd Habs Hnet.
  set (w0 := set_fs (<[cwd w ++ [dest] := Dir]> (fs w)) (tell (Makedirs dest) w)).
  assert (os.makedirs dest w = (Ok tt, w0)) as Hmk.
  { rewrite (makedirs_single _ _ dest_bare). simpl. by rewrite Hcwd, Habs. }
  pose proof (created_ready dest w Hcwd) as Hw0.
  pose proof (created_flat dest w Ht Habs) as Hflat0. fold w0 in Hw0, Hflat0.
  destruct (for_each_completes net website dest dest_bare pre w0 Hpre Hw0 Hflat0)
    as [w1 Hrun].
  { intros i g Hi. destruct (Hnet i g Hi) as [data Hd]. exists data.
    rewrite <- Hd. f_equal. simpl. rewrite length_app. simpl. lia. }
  exists w0, w1. split; [done|]. split; [done|].
  pose proof (for_each_log _ _ _ _ _ _ _ Hrun) as (Hcwd1 & _ & k & _ & Hlog & Hk).
  rewrite (Hk eq_refl), firstn_all in Hlog.
  pose proof (for_each_frame _ _ _ dest_bare _ _ _ _ Hpre Hw0 Hrun) as [Hw1 Hfr].
  split; [done|]. split; [done|].
  split; [by apply (for_each_flat _ _ _ dest_bare _ _ _ _ Hpre Hw0 Hflat0 Hrun)|].
  split; [rewrite Hlog; simpl; by rewrite <- app_assoc|].
  split.
  - apply (listdir_after pre w0 (Ok tt) w1 Hpre Hw0); [|done|].
    + intros c. unfold D. simpl. by apply created_empty.
    + intros f Hf.
      destruct (for_each_present _ _ _ Hpre Hw0 Hrun f Hf) as [data Hd]. by eexists.
  - intros p Hp HpD. destruct (Hfr p) as [->|(g & _ & _ & E & _)].
    + simpl. by rewrite lookup_insert_ne.
    + destruct (Hp g). rewrite E. unfold D. simpl. by rewrite <- app_assoc.
Qed.

End directory_contents.

(** C1, counterexample.  With the manifest [a.jpg], [b.jpg], [c.jpg] and
    a server whose answer for [b.jpg] ends short of the length it
    announced, the run stops at [b.jpg], and the directory holds
    [b.jpg], with the four bytes that arrived, next to [a.jpg]. *)
Lemma interrupted_fetch_leaves_partial_file :
  fetch_all breaking website ["a.jpg"; "b.jpg"; "c.jpg"] "imgs" home =
    (Raise ContentTooShortError,
     {| fs := {[ [] := Dir; ["home"] := Dir; ["home"; "imgs"] := Dir;
                 ["home"; "imgs"; "a.jpg"] := File ["d"; "o"; "n"; "e"]%byte;
                 ["home"; "imgs"; "b.jpg"] := File ["b"; "r"; "o"; "k"]%byte ]};
        cwd := ["home"];
        log := [Makedirs "imgs";
                Urlretrieve "https://monstermash.zone/imgs/a.jpg" "imgs/a.jpg";
                Urlretrieve "https://monstermash.zone/imgs/b.jpg" "imgs/b.jpg"] |})
  ∧ ¬ failed_fetch_leaves_fetched_prefix.
Proof.
  split; [vm_compute; reflexivity|]. intros H.
  destruct (H breaking website "imgs" ["a.jpg"] "b.jpg" ["c.jpg"] home)
    as [_ Hdir]; [reflexivity|exact tree_home|reflexivity|reflexivity|..].
  - intros [|[|i]] g; [|done..]. intros [= <-]. by eexists.
  - intros data. vm_compute. discriminate.
  - assert ("b.jpg" ∈ (list_to_set ["a.jpg"] : gset string)) as Hb.
    { rewrite <- Hdir. apply elem_of_listdir. vm_compute. eauto. }
    apply elem_of_list_to_set, list_elem_of_In in Hb.
    destruct Hb as [Hb|[]]. discriminate Hb.
Qed.

(** A name with [..] in it is written outside the directory: the run
    returns, and [imgs] stays empty. *)
Example parent_name_escapes :
  fetch_all serving website ["../x"] "imgs" home =
    (Ok tt,
     {| fs := {[ [] := Dir; ["home"] := Dir; ["home"; "imgs"] := Dir;
                 ["home"; "x"] := File ["x"]%byte ]};
        cwd := ["home"];
        log := [Makedirs "imgs";
                Urlretrieve "https://monstermash.zone/imgs/../x" "imgs/../x"] |}).
Proof. vm_compute. reflexivity. Qed.

(** C1, amended.  When the directory has been created, the entries
    before [f], bare names, have been fetched in full and the fetch of
    [f] fails, the run raises at [f]: the log ends with the call for
    [f], so no later entry is fetched or written.  If the fetch failed
    before there was a response ([urlopen] raised: no connection, a
    status such as 404), the run raises that exception and the directory
    holds the files of the entries before [f], no others.  If it failed
    once the response had begun, and [f] is a bare name too, the run
    raises the exception of the broken transfer and the file of [f] is
    there as well, holding the part of the body that was written before
    the failure, which may be nothing. *)
Theorem fetch_failure_aborts net website dest pre f post w r w' :
  bare dest = true → Forall (λ g, bare g = true) pre → tree (fs w) →
  fs w !! cwd w = Some Dir → fs w !! (cwd w ++ [dest]) = None →
  (∀ i g, pre !! i = Some g →
     ∃ data, net (S (length (log w)) + i) (website +:+ g) = Complete data) →
  (∀ data, net (S (length (log w)) + length pre) (website +:+ f) ≠ Complete data) →
  fetch_all net website (pre ++ f :: post) dest w = (r, w') →
  (∃ e, r = Raise e) ∧
  log w' = log w ++ Makedirs dest :: (fetch_of website dest <$> pre ++ [f]) ∧
  (∀ e, net (S (length (log w)) + length pre) (website +:+ f) = Failed e →
     r = Raise e ∧
     listdir (fs w') (cwd w ++ [dest]) = list_to_set pre) ∧
  (∀ written e,
     net (S (length (log w)) + length pre) (website +:+ f) = Interrupted written e →
     bare f = true →
     r = Raise e ∧
     listdir (fs w') (cwd w ++ [dest]) = list_to_set (pre ++ [f]) ∧
     fs w' !! (cwd w ++ [dest; f]) = Some (File written)).
Proof.
  intros Hd Hpre Ht Hcwd Habs Hnet Hf Hrun.
  destruct (fetched_prefix net website dest Hd pre w Hpre Ht Hcwd Habs Hnet)
    as (w0 & w1 & Hmk & Hloop & Hcwd1 & Hw1 & Hflat1 & Hlog1 & Hdir1 & _).
  rewrite fetch_all_unfold, Hmk, for_each_app, Hloop in Hrun.
  simpl in Hrun. unfold bind in Hrun.
  assert (length (log w1) = S (length (log w)) + length pre) as Hnow.
  { rewrite Hlog1, length_app. simpl. rewrite length_fmap. lia. }
  destruct (urlretrieve_incomplete net (website +:+ f) (posixpath.join dest f) w1)
    as (e & w2 & E); [by rewrite Hnow|].
  unfold body in Hrun at 1. rewrite E in Hrun. injection Hrun as <- <-.
  pose proof E as (Hlog2 & _)%urlretrieve_frame.
  split; [by exists e|]. split.
  { rewrite Hlog2, Hlog1, fmap_app, <- app_assoc. done. }
  split.
  - intros e1 Hfail. rewrite <- Hnow in Hfail.
    rewrite (urlretrieve_failed _ _ _ _ _ Hfail) in E. by injection E as <- <-.
  - intros written e1 Hcut Hfb. rewrite <- Hnow in Hcut.
    pose proof (body_in net website dest Hd f w1 Hfb Hw1) as Ein.
    unfold body in Ein at 1. rewrite E in Ein. simpl in Ein. rewrite Hcut in Ein.
    unfold D in Ein. rewrite Hcwd1, <- app_assoc in Ein. simpl in Ein.
    destruct (fs w1 !! (cwd w ++ [dest; f])) as [[|old]|] eqn:Et.
    + exfalso. apply (Hflat1 f). unfold D. by rewrite Hcwd1, <- app_assoc.
    + injection Ein as -> ->. simpl. split; [done|].
      replace (cwd w ++ [dest; f]) with ((cwd w ++ [dest]) ++ [f])
        by (by rewrite <- app_assoc).
      rewrite listdir_insert, Hdir1, lookup_insert_eq, list_to_set_snoc_L.
      split; [apply (comm_L (∪))|done].
    + injection Ein as -> ->. simpl. split; [done|].
      replace (cwd w ++ [dest; f]) with ((cwd w ++ [dest]) ++ [f])
        by (by rewrite <- app_assoc).
      rewrite listdir_insert, Hdir1, lookup_insert_eq, list_to_set_snoc_L.
      split; [apply (comm_L (∪))|done].
Qed.

Lemma fetch_failure_aborts_witness :
  ∃ r w',
    fetch_all breaking website ["a.jpg"; "b.jpg"; "c.jpg"] "imgs" home = (r, w') ∧
    log w' = [Makedirs "imgs";
              fetch_of website "imgs" "a.jpg"; fetch_of website "imgs" "b.jpg"] ∧
    r = Raise ContentTooShortError ∧
    listdir (fs w') ["home"; "imgs"] = list_to_set ["a.jpg"; "b.jpg"] ∧
    fs w' !! ["home"; "imgs"; "b.jpg"] = Some (File ["b"; "r"; "o"; "k"]%byte).
Proof.
  eexists _, _. split; [reflexivity|].
  edestruct (fetch_failure_aborts breaking website "imgs" ["a.jpg"] "b.jpg"
               ["c.jpg"] home) as (_ & Hlog & _ & Hcut).
  - reflexivity.
  - by repeat constructor.
  - exact tree_home.
  - reflexivity.
  - reflexivity.
  - intros [|[|i]] g; [|done..]. intros [= <-]. by eexists.
  - intros data. vm_compute. discriminate.
  - reflexivity.
  - split; [exact Hlog|]. exact (Hcut _ _ eq_refl eq_refl).
Defined.

(** What a run that returns has done, for a manifest of bare names. *)
Lemma run_returns net website dest files w w' :
  bare dest = true → Forall (λ f, bare f = true) files → tree (fs w) →
  fetch_all net website files dest w = (Ok tt, w') →
  listdir (fs w') (cwd w ++ [dest]) = list_to_set files ∧
  ∀ i f, files !! i = Some f → f ∉ drop (S i) files →
    ∃ data, net (S (length (log w)) + i) (website +:+ f) = Complete data ∧
            fs w' !! (cwd w ++ [dest; f]) = Some (File data).
Proof.
  intros Hd Hfiles Ht Hrun. rewrite fetch_all_unfold in Hrun.
  destruct (os.makedirs dest w) as [[[]|e] w0] eqn:Hmk; [|done].
  apply (makedirs_single_ok _ _ _ Hd) in Hmk as (Hcwd & Habs & ->).
  pose proof (created_ready dest w Hcwd) as Hw0. split.
  - apply (listdir_after net website dest Hd files _ (Ok tt) w' Hfiles Hw0); [|done|].
    + intros c. unfold D. simpl. by apply created_empty.
    + intros f Hf.
      destruct (for_each_present _ _ _ Hd _ _ _ Hfiles Hw0 Hrun f Hf) as [data E].
      by eexists.
  - intros i f Hi Hlast.
    destruct (for_each_success _ _ _ Hd _ _ _ Hfiles Hw0 Hrun i f Hi Hlast)
      as (data & Hnet & Hfs).
    exists data. simpl in Hnet. rewrite length_app in Hnet. simpl in Hnet.
    unfold D in Hfs. simpl in Hfs. rewrite <- app_assoc in Hfs. split; [|done].
    rewrite <- Hnet. f_equal. lia.
Qed.

(** C2, counterexample.  The manifest names [a.jpg] twice and the server
    answers the second request with other bytes than the first: the run
    returns, and the one file [a.jpg] holds the second answer, not what
    was served for the first entry. *)
Lemma repeated_name_keeps_last_answer :
  fetch_all serving website ["a.jpg"; "a.jpg"] "imgs" home =
    (Ok tt,
     {| fs := {[ [] := Dir; ["home"] := Dir; ["home"; "imgs"] := Dir;
                 ["home"; "imgs"; "a.jpg"] := File ["x"; "x"]%byte ]};
        cwd := ["home"];
        log := [Makedirs "imgs";
                Urlretrieve "https://monstermash.zone/imgs/a.jpg" "imgs/a.jpg";
                Urlretrieve "https://monstermash.zone/imgs/a.jpg" "imgs/a.jpg"] |})
  ∧ ¬ success_mirrors_every_entry.
Proof.
  assert (fetch_all serving website ["a.jpg"; "a.jpg"] "imgs" home =
    (Ok tt,
     {| fs := {[ [] := Dir; ["home"] := Dir; ["home"; "imgs"] := Dir;
                 ["home"; "imgs"; "a.jpg"] := File ["x"; "x"]%byte ]};
        cwd := ["home"];
        log := [Makedirs "imgs";
                Urlretrieve "https://monstermash.zone/imgs/a.jpg" "imgs/a.jpg";
                Urlretrieve "https://monstermash.zone/imgs/a.jpg" "imgs/a.jpg"] |}))
    as E by (vm_compute; reflexivity).
  split; [done|]. intros H.
  destruct (H serving website "imgs" ["a.jpg"; "a.jpg"] home _
              eq_refl tree_home ltac:(done) E) as [_ Hentry].
  destruct (Hentry 0 "a.jpg" eq_refl) as (data & Hserved & Hfile).
  vm_compute in Hserved, Hfile. congruence.
Qed.

(** C2, amended.  After a run that returns, for a manifest of bare names
    (no [/], not empty, not [.] or [..]): the directory holds the files
    the manifest names, no others, and the file of a name holds the body
    served for the last entry of that name, at the time of that request.
    When the names are pairwise distinct that is one file for each
    entry, holding what was served when the entry was fetched. *)
Theorem successful_run_mirrors_manifest net website dest files w w' :
  bare dest = true → Forall (λ f, bare f = true) files → tree (fs w) →
  fetch_all net website files dest w = (Ok tt, w') →
  listdir (fs w') (cwd w ++ [dest]) = list_to_set files ∧
  (∀ i f, files !! i = Some f → f ∉ drop (S i) files →
     ∃ data, net (S (length (log w)) + i) (website +:+ f) = Complete data ∧
             fs w' !! (cwd w ++ [dest; f]) = Some (File data)) ∧
  (NoDup files →
     size (listdir (fs w') (cwd w ++ [dest])) = length files ∧
     ∀ i f, files !! i = Some f →
       ∃ data, net (S (length (log w)) + i) (website +:+ f) = Complete data ∧
               fs w' !! (cwd w ++ [dest; f]) = Some (File data)).
Proof.
  intros Hd Hfiles Ht Hrun.
  destruct (run_returns _ _ _ _ _ _ Hd Hfiles Ht Hrun) as [Hdir Hentry].
  split; [done|]. split; [done|]. intros Hnodup. split.
  - rewrite Hdir. by apply size_list_to_set.
  - intros i f Hi. apply Hentry; [done|]. intros Hin.
    apply list_elem_of_lookup in Hin as [j Hj]. rewrite lookup_drop in Hj.
    pose proof (NoDup_lookup _ _ _ _ Hnodup Hi Hj). lia.
Qed.

Lemma successful_run_mirrors_manifest_witness :
  ∃ w',
    fetch_all serving website ["x.svg"] "imgs" home = (Ok tt, w') ∧
    listdir (fs w') ["home"; "imgs"] = list_to_set ["x.svg"] ∧
    size (listdir (fs w') ["home"; "imgs"]) = 1 ∧
    ∃ data, serving 1 (website +:+ "x.svg") = Complete data ∧
            fs w' !! ["home"; "imgs"; "x.svg"] = Some (File data).
Proof.
  eexists. split; [vm_compute; reflexivity|].
  edestruct (successful_run_mirrors_manifest serving website "imgs" ["x.svg"] home)
    as (Hdir & _ & Hdistinct).
  - reflexivity.
  - by repeat constructor.
  - exact tree_home.
  - vm_compute. reflexivity.
  - split; [exact Hdir|].
    destruct (Hdistinct ltac:(repeat constructor; by intros ?%elem_of_nil))
      as [Hsize Hentry].
    split; [exact Hsize|]. exact (Hentry 0 "x.svg" eq_refl).
Defined.

(** * The manifest of the script *)

Lemma files_bare : Forall (λ f, bare f = true) files.
Proof. by repeat constructor. Qed.

Lemma files_length : length files = 30.
Proof. reflexivity. Qed.

Lemma files_distinct : NoDup files.
Proof. apply (bool_decide_unpack _). by vm_compute. Qed.


Lemma requests_fetches website dest l :
  requests (fetch_of website dest <$> l) = (λ f, website +:+ f) <$> l.
Proof.
  induction l as [|f l IH]; [done|]. unfold requests in *.
  rewrite !fmap_cons. simpl. by f_equal.
Qed.

(** The requests of a run of the script are the first [k] URLs, for the
    number [k] of entries it got to; all of them if it returns. *)
Lemma run_requests_take net w :
  ∃ k, run_requests net w = take k urls ∧
       ((main net w).1 = Ok tt → k = length files).
Proof.
  unfold run_requests. destruct (main net w) as [r w'] eqn:Hrun.
  apply fetch_all_log in Hrun as (_ & k & _ & Hlog & Hk).
  exists k. split; [|done]. simpl. rewrite Hlog, drop_app_length.
  unfold urls. rewrite <- fmap_take. apply (requests_fetches website "imgs").
Qed.

(** With a server that has everything, in an empty home directory, the
    script returns. *)
Lemma main_serving_home : main serving home = (Ok tt, (main serving home).2).
Proof. vm_compute. reflexivity. Qed.

(** With a server that has [b.jpg] in part only, which the script does not
    ask for, in a bare root directory, the script returns as well. *)
Lemma main_breaking_root :
  main breaking root_only = (Ok tt, (main breaking root_only).2).
Proof. vm_compute. reflexivity. Qed.



(** C8, counterexample.  The manifest has 30 names, not 31. *)
Lemma manifest_has_30_names :
  length files = 30 ∧ ¬ manifest_of_31_distinct.
Proof. split; [reflexivity|]. intros [H _]. discriminate H. Qed.

(** C8, amended.  The 30 names of the manifest are pairwise distinct, and
    so are the 30 paths the script writes to: no download of a run
    overwrites the file of an earlier entry, and a run that returns
    leaves exactly 30 files in [imgs]. *)
Theorem manifest_names_distinct net w w' :
  tree (fs w) → main net w = (Ok tt, w') →
  length files = 30 ∧ NoDup files ∧
  NoDup (posixpath.join "imgs" <$> files) ∧
  size (listdir (fs w') (cwd w ++ ["imgs"])) = 30.
Proof.
  intros Ht Hrun. split; [reflexivity|]. split; [exact files_distinct|]. split.
  - apply (bool_decide_unpack _). by vm_compute.
  - destruct (run_returns net website "imgs" files w w' eq_refl files_bare Ht Hrun)
      as [-> _].
    by rewrite (size_list_to_set _ files_distinct).
Qed.

Lemma manifest_names_distinct_witness :
  main serving home = (Ok tt, (main serving home).2) ∧
  size (listdir (fs (main serving home).2) (cwd home ++ ["imgs"])) = 30.
Proof.
  split; [exact main_serving_home|].
  apply (manifest_names_distinct serving home _ tree_home main_serving_home).
Defined.

(** C9.  No name in the manifest has a [/] in it or is [..] (or [.], or
    empty), so the path the script writes an entry to is [imgs/] and the
    name.  Whatever the server does and wherever the script runs, it
    changes nothing in the file system but [imgs], which it creates as a
    directory, and files directly in [imgs] that carry the name of a
    manifest entry. *)
Theorem writes_stay_in_imgs net w r w' :
  main net w = (r, w') →
  Forall (λ f, has_sep f = false ∧ f ≠ ".." ∧ f ≠ "." ∧ f ≠ "" ∧
               posixpath.join "imgs" f = "imgs/" +:+ f) files ∧
  ∀ p, fs w' !! p = fs w !! p
     ∨ (p = cwd w ++ ["imgs"] ∧ fs w !! p = None ∧ fs w' !! p = Some Dir)
     ∨ ∃ f data, f ∈ files ∧ p = cwd w ++ ["imgs"; f] ∧
                 fs w' !! p = Some (File data).
Proof.
  intros Hrun. split.
  - eapply Forall_impl; [exact files_bare|]. intros f Hf. simpl.
    split; [by apply bare_no_sep|].
    pose proof (bare_not_dot _ Hf) as Hdot.
    repeat split; try (intros ->; discriminate Hdot).
    by rewrite (join_bare "imgs" f eq_refl (bare_not_abs _ Hf)).
  - unfold main in Hrun. rewrite fetch_all_unfold in Hrun.
    destruct (os.makedirs "imgs" w) as [[[]|e] w0] eqn:Hmk.
    + apply (makedirs_single_ok "imgs" _ _ eq_refl) in Hmk as (Hcwd & Habs & ->).
      pose proof (created_ready "imgs" w Hcwd) as Hw0.
      apply (for_each_frame net website "imgs" eq_refl _ _ _ _ files_bare Hw0)
        in Hrun as [_ Hfr].
      intros p. destruct (Hfr p) as [E|(f & data & Hf & -> & E)].
      * simpl in E. destruct (decide (p = cwd w ++ ["imgs"])) as [->|Hne].
        -- right. left. by rewrite E, lookup_insert_eq.
        -- left. by rewrite E, lookup_insert_ne.
      * right. right. exists f, data. unfold D in *. simpl in *.
        rewrite <- app_assoc in *. done.
    + apply (makedirs_single_raise "imgs" _ _ _ eq_refl) in Hmk as ->.
      injection Hrun as <- <-. intros p. by left.
Qed.

Lemma writes_stay_in_imgs_witness :
  main serving home = (Ok tt, (main serving home).2) ∧
  ∀ p, fs (main serving home).2 !! p = fs home !! p
     ∨ (p = cwd home ++ ["imgs"] ∧ fs home !! p = None ∧
        fs (main serving home).2 !! p = Some Dir)
     ∨ ∃ f data, f ∈ files ∧ p = cwd home ++ ["imgs"; f] ∧
                 fs (main serving home).2 !! p = Some (File data).
Proof.
  split; [exact main_serving_home|].
  apply (writes_stay_in_imgs serving home _ _ main_serving_home).
Defined.

(** C10, counterexample.  A run that cannot create [imgs] makes no
    request, a run that returns makes 30: two runs need not make the
    same requests, and none makes 31. *)
Lemma runs_request_30_or_fewer :
  run_requests serving home_with_file = [] ∧
  length (run_requests serving home) = 30 ∧
  ¬ every_run_requests_the_same_31.
Proof.
  assert (length (run_requests serving home) = 30) as E.
  { destruct (run_requests_take serving home) as (k & -> & Hk).
    rewrite (Hk ltac:(by rewrite main_serving_home)). reflexivity. }
  split; [by vm_compute|]. split; [done|]. intros H.
  destruct (H serving home serving home) as [_ H31]. congruence.
Qed.

(** C10, amended.  The URLs are one fixed list of 30, [website] followed
    by each name of the manifest in order, the same for every server,
    working directory and file system.  The requests of a run are a
    first stretch of that list, as far as the run gets, and the whole
    list when it returns: two runs that return have made identical
    requests. *)
Theorem requests_follow_fixed_urls net1 w1 net2 w2 :
  length urls = 30 ∧
  run_requests net1 w1 `prefix_of` urls ∧
  run_requests net2 w2 `prefix_of` urls ∧
  ((main net1 w1).1 = Ok tt → (main net2 w2).1 = Ok tt →
   run_requests net1 w1 = urls ∧ run_requests net2 w2 = urls).
Proof.
  destruct (run_requests_take net1 w1) as (k1 & -> & Hk1).
  destruct (run_requests_take net2 w2) as (k2 & -> & Hk2).
  split; [reflexivity|]. split; [apply prefix_take|]. split; [apply prefix_take|].
  intros H1 H2. rewrite (Hk1 H1), (Hk2 H2).
  assert (length files = length urls) as -> by reflexivity.
  by rewrite firstn_all.
Qed.

Lemma requests_follow_fixed_urls_witness :
  run_requests serving home = urls ∧ run_requests breaking root_only = urls.
Proof.
  apply (requests_follow_fixed_urls serving home breaking root_only).
  - by rewrite main_serving_home.
  - by rewrite main_breaking_root.
Defined.

(** * Further properties of the script *)

Section more_about_the_loop.

Variables (net : network) (website dest : string).

Implicit Types (w : world) (l : list string).

(** Whatever its arguments, [urlretrieve] removes nothing: what was a
    directory stays one, what was a file stays a file. *)
Lemma urlretrieve_keeps url filename w r w' p n :
  urllib.urlretrieve net url filename w = (r, w') →
  fs w !! p = Some n →
  ∃ n', fs w' !! p = Some n' ∧ (n = Dir ↔ n' = Dir).
Proof.
  intros [[-> _]|(t & data & Ht & -> & _)]%urlretrieve_cases Hp; [by exists n|].
  simpl. destruct (decide (t = p)) as [->|Hne].
  - rewrite lookup_insert_eq. eexists. split; [done|].
    split; [intros ->; by destruct Ht|done].
  - rewrite lookup_insert_ne by done. by exists n.
Qed.

Lemma for_each_keeps l w r w' p n :
  for_each l (body net website dest) w = (r, w') →
  fs w !! p = Some n →
  ∃ n', fs w' !! p = Some n' ∧ (n = Dir ↔ n' = Dir).
Proof.
  revert w n. induction l as [|f l IH]; intros w n; simpl.
  - intros [= <- <-] Hp. by exists n.
  - unfold bind. destruct (body net website dest f w) as [[[]|e] w1] eqn:E.
    + intros Hrest Hp.
      destruct (urlretrieve_keeps _ _ _ _ _ _ _ E Hp) as (n1 & Hp1 & Hk1).
      destruct (IH _ _ Hrest Hp1) as (n' & Hp' & Hk').
      exists n'. split; [done|]. by rewrite Hk1.
    + intros [= <- <-] Hp. by apply (urlretrieve_keeps _ _ _ _ _ _ _ E Hp).
Qed.

(** A loop that returns was answered in full at every entry. *)
Lemma for_each_ok_served l w w' :
  for_each l (body net website dest) w = (Ok tt, w') →
  ∀ i f, l !! i = Some f →
    ∃ data, net (length (log w) + i) (website +:+ f) = Complete data.
Proof.
  revert w. induction l as [|g l IH]; intros w; [done|].
  simpl. unfold bind.
  destruct (body net website dest g w) as [[[]|e] w1] eqn:E; [|done].
  intros Hrest i f Hi.
  pose proof E as (Hlog & _)%urlretrieve_frame.
  apply urlretrieve_ok in E as (data & Hnet).
  destruct i as [|i]; simpl in Hi.
  - injection Hi as <-. exists data. by rewrite Nat.add_0_r.
  - destruct (IH _ Hrest i f Hi) as (data' & Hnet'). exists data'.
    rewrite <- Hnet', Hlog, length_app. f_equal. simpl. lia.
Qed.

(** A loop that raises does so in the call for one entry: the entries
    before it were answered in full, and its call is the last. *)
Lemma for_each_raise l w e w' :
  for_each l (body net website dest) w = (Raise e, w') →
  ∃ k f, l !! k = Some f ∧
    (∀ i g, i < k → l !! i = Some g →
       ∃ data, net (length (log w) + i) (website +:+ g) = Complete data) ∧
    log w' = log w ++ (fetch_of website dest <$> take (S k) l).
Proof.
  revert w. induction l as [|g l IH]; intros w; [done|].
  simpl. unfold bind.
  destruct (body net website dest g w) as [[[]|e1] w1] eqn:E.
  - intros Hrest.
    pose proof E as (Hlog & _)%urlretrieve_frame.
    apply urlretrieve_ok in E as (data & Hnet).
    destruct (IH _ Hrest) as (k & f & Hk & Hbefore & Hlog').
    assert (∀ i, length (log w1) + i = length (log w) + S i) as Hshift.
    { intros i. rewrite Hlog, length_app. simpl. lia. }
    exists (S k), f. split; [done|]. split.
    + intros [|i] h Hi Hh; simpl in Hh.
      * injection Hh as <-. exists data. by rewrite Nat.add_0_r.
      * rewrite <- Hshift. apply Hbefore; [lia|done].
    + rewrite Hlog', Hlog, <- app_assoc. done.
  - intros [= <- <-]. exists 0, g. split; [done|]. split; [intros; lia|].
    by apply urlretrieve_frame in E as (Hlog & _).
Qed.

End more_about_the_loop.

(** X1.  A run that returns, whatever the manifest, found no directory
    of the destination's name (a single name, as the script's [imgs]) in
    a working directory that was there, and had every entry's request,
    at the time it was made, answered in full. *)
Theorem run_returns_only_if net website dest files w w' :
  bare dest = true →
  fetch_all net website files dest w = (Ok tt, w') →
  fs w !! cwd w = Some Dir ∧ fs w !! (cwd w ++ [dest]) = None ∧
  ∀ i f, files !! i = Some f →
    ∃ data, net (S (length (log w)) + i) (website +:+ f) = Complete data.
Proof.
  intros Hd. rewrite fetch_all_unfold.
  destruct (os.makedirs dest w) as [[[]|e] w0] eqn:Hmk; [|done].
  apply (makedirs_single_ok _ _ _ Hd) in Hmk as (Hcwd & Habs & ->).
  intros Hrun. split; [done|]. split; [done|]. intros i f Hi.
  destruct (for_each_ok_served net website dest files _ w' Hrun i f Hi)
    as (data & Hnet).
  exists data. rewrite <- Hnet. f_equal. simpl. rewrite length_app. simpl. lia.
Qed.

Lemma run_returns_only_if_witness :
  fs home !! cwd home = Some Dir ∧ fs home !! (cwd home ++ ["imgs"]) = None ∧
  ∀ i f, ["a.jpg"; "../b.jpg"] !! i = Some f →
    ∃ data, serving (S (length (log home)) + i) (website +:+ f) = Complete data.
Proof.
  apply (run_returns_only_if serving website "imgs" ["a.jpg"; "../b.jpg"] home
           (fetch_all serving website ["a.jpg"; "../b.jpg"] "imgs" home).2).
  - reflexivity.
  - vm_compute. reflexivity.
Defined.

(** X2.  Whatever the manifest and the destination, a run removes
    nothing: every path that was there is still there afterwards, a
    directory still a directory and a file still a file. *)
Theorem run_removes_nothing net website dest files w r w' p n :
  fetch_all net website files dest w = (r, w') →
  fs w !! p = Some n →
  ∃ n', fs w' !! p = Some n' ∧ (n = Dir ↔ n' = Dir).
Proof.
  rewrite fetch_all_unfold. intros Hrun Hp.
  destruct (os.makedirs dest w) as [[[]|e] w0] eqn:Hmk;
    apply makedirs_grows in Hmk as (_ & _ & Hfs).
  - eapply for_each_keeps; [exact Hrun|].
    destruct (Hfs p) as [->|[E _]]; [done|congruence].
  - injection Hrun as <- <-. exists n. split; [|done].
    destruct (Hfs p) as [->|[E _]]; [done|congruence].
Qed.

Lemma run_removes_nothing_witness :
  ∃ n',
    fs (fetch_all serving website ["../home"; "b.jpg"] "imgs" home).2 !! ["home"]
      = Some n' ∧ (Dir = Dir ↔ n' = Dir).
Proof.
  apply (run_removes_nothing serving website "imgs" ["../home"; "b.jpg"] home
           (fetch_all serving website ["../home"; "b.jpg"] "imgs" home).1
           (fetch_all serving website ["../home"; "b.jpg"] "imgs" home).2
           ["home"] Dir).
  - vm_compute. reflexivity.
  - reflexivity.
Defined.

(** X3.  There is no retry: when the names of the manifest are pairwise
    distinct, no URL is requested twice in a run. *)
Theorem no_url_requested_twice net website dest files w r w' :
  NoDup files →
  fetch_all net website files dest w = (r, w') →
  NoDup (requests (drop (length (log w)) (log w'))).
Proof.
  intros Hnodup Hrun.
  apply fetch_all_log in Hrun as (_ & k & _ & -> & _).
  rewrite drop_app_length.
  change (NoDup (requests (fetch_of website dest <$> take k files))).
  rewrite requests_fetches. apply NoDup_fmap_2; [apply String.app_inj|].
  exact (sublist_NoDup _ _ Hnodup (sublist_take files k)).
Qed.

Lemma no_url_requested_twice_witness :
  NoDup (requests (drop (length (log home)) (log (main serving home).2))).
Proof.
  apply (no_url_requested_twice serving website "imgs" files home (Ok tt) _
           files_distinct main_serving_home).
Defined.

(** X4.  A run that raises after it has created the directory raises in
    the call for one entry of the manifest: every entry before that one
    was answered in full, and the call for it is the last the run makes.
    This holds whatever the manifest and the destination. *)
Theorem run_raises_at_one_entry net website dest files w w0 e w' :
  os.makedirs dest w = (Ok tt, w0) →
  fetch_all net website files dest w = (Raise e, w') →
  ∃ k f, files !! k = Some f ∧
    (∀ i g, i < k → files !! i = Some g →
       ∃ data, net (length (log w0) + i) (website +:+ g) = Complete data) ∧
    log w' = log w ++ Makedirs dest :: (fetch_of website dest <$> take (S k) files).
Proof.
  intros Hmk Hrun. rewrite fetch_all_unfold, Hmk in Hrun.
  apply makedirs_grows in Hmk as (Hlog0 & _ & _).
  destruct (for_each_raise net website dest files _ e w' Hrun)
    as (k & f & Hk & Hbefore & Hlog).
  exists k, f. split; [done|]. split; [done|].
  by rewrite Hlog, Hlog0, <- app_assoc.
Qed.

Lemma run_raises_at_one_entry_witness :
  ∃ k f,
    ["a.jpg"; "b.jpg"; "c.jpg"] !! k = Some f ∧
    (∀ i g, i < k → ["a.jpg"; "b.jpg"; "c.jpg"] !! i = Some g →
       ∃ data, breaking (length (log (os.makedirs "imgs" home).2) + i)
                 (website +:+ g) = Complete data) ∧
    log (fetch_all breaking website ["a.jpg"; "b.jpg"; "c.jpg"] "imgs" home).2 =
      log home ++ Makedirs "imgs" ::
        (fetch_of website "imgs" <$> take (S k) ["a.jpg"; "b.jpg"; "c.jpg"]).
Proof.
  apply (run_raises_at_one_entry breaking website "imgs"
           ["a.jpg"; "b.jpg"; "c.jpg"] home (os.makedirs "imgs" home).2
           ContentTooShortError).
  - vm_compute. reflexivity.
  - vm_compute. reflexivity.
Defined.

(** X5.  The loop stops at the first entry that raises: a run over a
    manifest continued by further entries is the run over the manifest
    alone when that one raises, and otherwise goes on with the further
    entries in the world that run left. *)
Theorem later_entries_run_after_earlier net website dest pre post w :
  fetch_all net website (pre ++ post) dest w =
    match fetch_all net website pre dest w with
    | (Ok _, w1) => for_each post (body net website dest) w1
    | (Raise e, w1) => (Raise e, w1)
    end.
Proof.
  rewrite !fetch_all_unfold.
  destruct (os.makedirs dest w) as [[[]|e] w0]; [|done].
  by rewrite for_each_app.
Qed.

(** X6.  [os.path.join] drops the destination when the entry starts with
    [/]: such an entry is fetched into the root of the file system, not
    into the destination directory, whatever that is. *)
Theorem absolute_entry_leaves_destination net website dest name w data :
  bare name = true →
  fs w !! [] = Some Dir → fs w !! [name] ≠ Some Dir →
  net (length (log w)) (website +:+ "/" +:+ name) = Complete data →
  body net website dest ("/" +:+ name) w =
    (Ok tt,
     set_fs (<[[name] := File data]> (fs w))
       (tell (Urlretrieve (website +:+ "/" +:+ name) ("/" +:+ name)) w)).
Proof.
  intros Hname Hroot Hfree Hnet.
  unfold body, urllib.urlretrieve. rewrite Hnet.
  change ("/" +:+ name) with (String "/" name).
  assert (endswith_sep (String "/" name) = false) as Hend.
  { rewrite endswith_sep_cons by (by apply bare_nonempty).
    by apply endswith_no_sep, bare_no_sep. }
  unfold posixpath.join, bind. simpl startswith_sep. cbv iota.
  rewrite (open_wb_file _ _ Hend). unfold lookup_parent, origin. simpl.
  rewrite (components_no_sep _ (bare_no_sep _ Hname)). simpl.
  rewrite Hroot. simpl. change (step [] "") with (@nil string).
  rewrite Hroot, (bare_not_dot _ Hname). unfold write, set_fs. simpl.
  destruct (fs w !! [name]) as [[|old]|]; [done|..]; simpl;
    by rewrite alter_insert_eq.
Qed.

Lemma absolute_entry_leaves_destination_witness :
  body serving website "imgs" ("/" +:+ "x.svg") home =
    (Ok tt,
     set_fs (<[["x.svg"] := File []]> (fs home))
       (tell (Urlretrieve (website +:+ "/" +:+ "x.svg") ("/" +:+ "x.svg")) home)).
Proof.
  apply (absolute_entry_leaves_destination serving website "imgs" "x.svg" home []).
  - reflexivity.
  - reflexivity.
  - vm_compute. discriminate.
  - reflexivity.
Defined.

(** X7.  However a run ends, once it has created the directory, for a
    manifest of bare names in a file system that is a tree: everything
    in the directory is a file, and carries the name of a manifest
    entry. *)
Theorem directory_holds_manifest_files_only net website dest files w w0 r w' c :
  bare dest = true → Forall (λ f, bare f = true) files → tree (fs w) →
  os.makedirs dest w = (Ok tt, w0) →
  fetch_all net website files dest w = (r, w') →
  c ∈ listdir (fs w') (cwd w ++ [dest]) →
  c ∈ files ∧ ∃ data, fs w' !! (cwd w ++ [dest; c]) = Some (File data).
Proof.
  intros Hd Hfiles Ht Hmk Hrun Hc. rewrite fetch_all_unfold, Hmk in Hrun.
  apply (makedirs_single_ok _ _ _ Hd) in Hmk as (Hcwd & Habs & ->).
  apply (for_each_frame net website dest Hd _ _ _ _ Hfiles
           (created_ready dest w Hcwd)) in Hrun as [_ Hfr].
  apply elem_of_listdir in Hc.
  destruct (Hfr ((cwd w ++ [dest]) ++ [c])) as [E|(f & data & Hf & E & Hfile)].
  - simpl in E. rewrite E, (created_empty dest w c Ht Habs) in Hc. by destruct Hc.
  - unfold D in E. simpl in E. apply app_inj_tail in E as [_ ->].
    split; [done|]. exists data. by rewrite <- app_assoc in Hfile.
Qed.

Lemma directory_holds_manifest_files_only_witness :
  "b.jpg" ∈ ["a.jpg"; "b.jpg"; "c.jpg"] ∧
  ∃ data,
    fs (fetch_all breaking website ["a.jpg"; "b.jpg"; "c.jpg"] "imgs" home).2
      !! (cwd home ++ ["imgs"; "b.jpg"]) = Some (File data).
Proof.
  apply (directory_holds_manifest_files_only breaking website "imgs"
           ["a.jpg"; "b.jpg"; "c.jpg"] home (os.makedirs "imgs" home).2
           (fetch_all breaking website ["a.jpg"; "b.jpg"; "c.jpg"] "imgs" home).1
           (fetch_all breaking website ["a.jpg"; "b.jpg"; "c.jpg"] "imgs" home).2).
  - reflexivity.
  - by repeat constructor.
  - exact tree_home.
  - vm_compute. reflexivity.
  - vm_compute. reflexivity.
  - apply elem_of_listdir. vm_compute. eauto.
Defined.

(** X8.  Whatever path it is given and however it ends, the creation of
    the directory changes nothing that exists and adds nothing but
    directories, and leaves the working directory where it was. *)
Theorem makedirs_adds_directories_only name w r w' :
  os.makedirs name w = (r, w') →
  cwd w' = cwd w ∧
  ∀ p, fs w' !! p = fs w !! p ∨ (fs w !! p = None ∧ fs w' !! p = Some Dir).
Proof. by intros (_ & Hcwd & Hfs)%makedirs_grows. Qed.

Lemma makedirs_adds_directories_only_witness :
  cwd (os.makedirs "imgs/x/../y" home_with_file).2 = cwd home_with_file ∧
  ∀ p, fs (os.makedirs "imgs/x/../y" home_with_file).2 !! p
        = fs home_with_file !! p
      ∨ (fs home_with_file !! p = None ∧
         fs (os.makedirs "imgs/x/../y" home_with_file).2 !! p = Some Dir).
Proof.
  apply (makedirs_adds_directories_only "imgs/x/../y" home_with_file
           (os.makedirs "imgs/x/../y" home_with_file).1).
  vm_compute. reflexivity.
Defined.

(** X9.  The script creates the destination and no directory below it:
    an entry that names a file in a subdirectory which is not there is
    requested, and then raises [FileNotFoundError] when the local file
    is opened; nothing is written. *)
Theorem entry_in_missing_subdirectory_raises net website dest sub name w data :
  bare dest = true → bare sub = true → bare name = true →
  ready dest w → fs w !! (cwd w ++ [dest; sub]) = None →
  net (length (log w)) (website +:+ sub +:+ "/" +:+ name) = Complete data →
  body net website dest (sub +:+ "/" +:+ name) w =
    (Raise FileNotFoundError,
     tell (Urlretrieve (website +:+ sub +:+ "/" +:+ name)
             (dest +:+ "/" +:+ sub +:+ "/" +:+ name)) w).
Proof.
  intros Hd Hs Hn [Hcwd HD] Habs Hnet. unfold D in HD.
  unfold body, urllib.urlretrieve. rewrite Hnet.
  rewrite (join_bare _ _ Hd (append_sep_not_abs _ _ Hs)).
  assert (endswith_sep (dest +:+ "/" +:+ sub +:+ "/" +:+ name) = false) as Hend.
  { rewrite (endswith_sep_append dest) by apply (append_sep_ne "").
    rewrite (endswith_sep_append "/") by apply append_sep_ne.
    by apply endswith_sep_in. }
  unfold bind. rewrite (open_wb_file _ _ Hend). unfold lookup_parent, origin.
  rewrite append_sep_nonempty, (append_sep_not_abs _ _ Hd).
  rewrite (components_append _ _ (bare_no_sep _ Hd)).
  rewrite (components_append _ _ (bare_no_sep _ Hs)).
  rewrite (components_no_sep _ (bare_no_sep _ Hn)). simpl.
  rewrite Hcwd, (step_bare _ _ Hd), HD, (step_bare _ _ Hs), <- app_assoc. simpl.
  by rewrite Habs.
Qed.

Lemma entry_in_missing_subdirectory_raises_witness :
  body serving website "imgs" ("icons" +:+ "/" +:+ "x.svg")
       (os.makedirs "imgs" home).2 =
    (Raise FileNotFoundError,
     tell (Urlretrieve (website +:+ "icons" +:+ "/" +:+ "x.svg")
             ("imgs" +:+ "/" +:+ "icons" +:+ "/" +:+ "x.svg"))
          (os.makedirs "imgs" home).2).
Proof.
  apply (entry_in_missing_subdirectory_raises serving website "imgs" "icons"
           "x.svg" (os.makedirs "imgs" home).2 ["x"]%byte).
  - reflexivity.
  - reflexivity.
  - reflexivity.
  - split; vm_compute; reflexivity.
  - vm_compute. reflexivity.
  - reflexivity.
Defined.
